(** * Spellman: a verified model of the BLiX Spellman controller server

    Shallow embedding of [bin/Spellman.py]: the line-framed TCP transport
    ([SpellmanEthernetInterface]), the set-point commit protocol
    ([set_voltage], [set_current]), the interlock query and the
    [enable]/[disable]/[IDN] commands, followed by the properties of the
    design document that are settled on this model.

    Python values are modelled as follows.
    - [bytes] is a list of [Byte.byte]; [str] is a list of Unicode code
      points ([N]); [bytes.decode()] and [str.encode()] are the strict UTF-8
      codec Python uses by default.
    - [int] is [Z].  [float] is an instance of the class [PyFloat]: the
      program text is written once against that interface and run at
      IEEE-754 binary64 ([Binary64], the arithmetic of CPython) and at exact
      rational arithmetic ([Exact], the arithmetic the design document
      reasons in).
    - A raised exception is an [outcome] next to the state reached when it
      was raised, so that mutations made before the [raise] stay visible. *)

From Stdlib Require Import ZArith NArith QArith Qround Qabs Lia Lqa List Bool.
From Stdlib Require Import Ascii String Strings.Byte Floats.
From Stdlib Require DecimalZ.
Import ListNotations.

Close Scope Q_scope.

(** ** Exceptions and outcomes *)

(** The exception classes that can leave the modelled code.  [DACError] is
    only ever raised through its two subclasses; both carry the offending
    DAC value in [message]. *)
Inductive exn : Type :=
| VoltageExceededError (dac_value : Z)
| CurrentExceededError (dac_value : Z)
| ValueError
| NameError (name : string)
| AttributeError (name : string)
| ZeroDivisionError
| OverflowError
| UnicodeDecodeError
| UnicodeEncodeError.

Inductive outcome (A : Type) : Type :=
| Returns (a : A)
| Raises (e : exn).
Arguments Returns {A} a.
Arguments Raises {A} e.

(** A Python method over a mutable receiver of type [S]. *)
Definition Py (S A : Type) : Type := S -> outcome A * S.

Definition ret {S A} (a : A) : Py S A := fun s => (Returns a, s).
Definition raise {S A} (e : exn) : Py S A := fun s => (Raises e, s).
Definition bind {S A B} (m : Py S A) (k : A -> Py S B) : Py S B :=
  fun s => match m s with
           | (Returns a, s') => k a s'
           | (Raises e, s') => (Raises e, s')
           end.
Definition lift {S A} (o : outcome A) : Py S A := fun s => (o, s).
Definition get {S} : Py S S := fun s => (Returns s, s).
Definition modify {S} (f : S -> S) : Py S unit := fun s => (Returns tt, f s).

Declare Scope py_scope.
Delimit Scope py_scope with py.
Notation "x <- m ;; k" := (bind m (fun x => k))
  (at level 61, m at next level, right associativity) : py_scope.
Notation "m ;;; k" := (bind m (fun _ => k))
  (at level 61, right associativity) : py_scope.
Open Scope py_scope.

(** ** Bytes and text *)

Definition bytes : Type := list byte.
Definition str : Type := list N.

(** A string literal of the source, as the code points of its characters. *)
Definition str_lit (s : string) : str :=
  List.map N_of_ascii (list_ascii_of_string s).

Definition str_eq_dec : forall a b : str, {a = b} + {a <> b} :=
  list_eq_dec N.eq_dec.

(** [LF = '\x0A'] *)
Definition LF : str := [10%N].

Definition byte_of_N (n : N) : byte :=
  match Byte.of_N n with Some b => b | None => x00 end.

(** *** UTF-8, strict *)

Open Scope N_scope.

Definition in_range (lo hi b : N) : bool := ((lo <=? b) && (b <=? hi))%N.

Inductive trail : Type := Trail1 | Trail2 | Trail3.

(** The well-formed ranges of the second byte, by lead byte, and the number
    of bytes that follow the lead (Unicode, table 3-7). *)
Definition utf8_lead (b0 : N) : option (N * N * trail) :=
  if in_range 0xC2 0xDF b0 then Some (0x80, 0xBF, Trail1)
  else if (b0 =? 0xE0) then Some (0xA0, 0xBF, Trail2)
  else if in_range 0xE1 0xEC b0 then Some (0x80, 0xBF, Trail2)
  else if (b0 =? 0xED) then Some (0x80, 0x9F, Trail2)
  else if in_range 0xEE 0xEF b0 then Some (0x80, 0xBF, Trail2)
  else if (b0 =? 0xF0) then Some (0x90, 0xBF, Trail3)
  else if in_range 0xF1 0xF3 b0 then Some (0x80, 0xBF, Trail3)
  else if (b0 =? 0xF4) then Some (0x80, 0x8F, Trail3)
  else None.

Definition cont (b : N) : bool := in_range 0x80 0xBF b.

Definition cp2 (b0 b1 : N) : N := (b0 - 0xC0) * 64 + (b1 - 0x80).
Definition cp3 (b0 b1 b2 : N) : N :=
  (b0 - 0xE0) * 4096 + (b1 - 0x80) * 64 + (b2 - 0x80).
Definition cp4 (b0 b1 b2 b3 : N) : N :=
  (b0 - 0xF0) * 262144 + (b1 - 0x80) * 4096 + (b2 - 0x80) * 64 + (b3 - 0x80).

Fixpoint utf8_decode (bs : list N) : option str :=
  match bs with
  | [] => Some []
  | b0 :: t0 =>
    if (b0 <? 0x80)%N then option_map (cons b0) (utf8_decode t0)
    else
      match utf8_lead b0, t0 with
      | Some (lo, hi, Trail1), b1 :: t1 =>
        if in_range lo hi b1
        then option_map (cons (cp2 b0 b1)) (utf8_decode t1)
        else None
      | Some (lo, hi, Trail2), b1 :: b2 :: t2 =>
        if in_range lo hi b1 && cont b2
        then option_map (cons (cp3 b0 b1 b2)) (utf8_decode t2)
        else None
      | Some (lo, hi, Trail3), b1 :: b2 :: b3 :: t3 =>
        if in_range lo hi b1 && cont b2 && cont b3
        then option_map (cons (cp4 b0 b1 b2 b3)) (utf8_decode t3)
        else None
      | _, _ => None
      end
  end.

(** [bytes.decode()] *)
Definition decode (data : bytes) : outcome str :=
  match utf8_decode (List.map Byte.to_N data) with
  | Some s => Returns s
  | None => Raises UnicodeDecodeError
  end.

Definition utf8_encode_cp (c : N) : option (list N) :=
  if (c <? 0x80)%N then Some [c]
  else if (c <? 0x800)%N then Some [0xC0 + c / 64; 0x80 + c mod 64]%N
  else if (c <? 0x10000)%N then
    if in_range 0xD800 0xDFFF c then None
    else Some [0xE0 + c / 4096; 0x80 + (c / 64) mod 64; 0x80 + c mod 64]%N
  else if (c <? 0x110000)%N then
    Some [0xF0 + c / 262144; 0x80 + (c / 4096) mod 64;
          0x80 + (c / 64) mod 64; 0x80 + c mod 64]%N
  else None.

Fixpoint utf8_encode (s : str) : option (list N) :=
  match s with
  | [] => Some []
  | c :: t =>
    match utf8_encode_cp c, utf8_encode t with
    | Some bs, Some rest => Some (bs ++ rest)
    | _, _ => None
    end
  end.

(** [str.encode()] *)
Definition encode (s : str) : outcome bytes :=
  match utf8_encode s with
  | Some bs => Returns (List.map byte_of_N bs)
  | None => Raises UnicodeEncodeError
  end.

Close Scope N_scope.

(** [sub in data] for a one-byte [sub]. *)
Definition contains (sub : byte) (data : bytes) : bool :=
  existsb (Byte.eqb sub) data.

(** [data.split(sep)] for a one-byte [sep]: the pieces between the
    occurrences of [sep], empty pieces included. *)
Fixpoint split (sep : byte) (data : bytes) : list bytes :=
  match data with
  | [] => [[]]
  | b :: t =>
    if Byte.eqb b sep then [] :: split sep t
    else match split sep t with
         | piece :: pieces => (b :: piece) :: pieces
         | [] => [[b]]
         end
  end.

(** ["{:d}".format(n)] *)
Fixpoint digits (d : Decimal.uint) : str :=
  match d with
  | Decimal.Nil => []
  | Decimal.D0 d => 48%N :: digits d
  | Decimal.D1 d => 49%N :: digits d
  | Decimal.D2 d => 50%N :: digits d
  | Decimal.D3 d => 51%N :: digits d
  | Decimal.D4 d => 52%N :: digits d
  | Decimal.D5 d => 53%N :: digits d
  | Decimal.D6 d => 54%N :: digits d
  | Decimal.D7 d => 55%N :: digits d
  | Decimal.D8 d => 56%N :: digits d
  | Decimal.D9 d => 57%N :: digits d
  end.

Definition format_d (n : Z) : str :=
  match Z.to_int n with
  | Decimal.Pos d => digits d
  | Decimal.Neg d => 45%N :: digits d
  end.

(** ** The transport: [SpellmanEthernetInterface] *)

(** The TCP socket as the program sees it.  [written] is everything handed
    to [send] so far, one entry per call; [incoming] is what the peer will
    deliver, one entry per arrival, and an exhausted list is the end of the
    stream ([recv] returns [b'']). *)
Record socket : Type := {
  written : list bytes;
  incoming : list bytes
}.

Definition socket_send (data : bytes) : Py socket unit :=
  modify (fun k => {| written := written k ++ [data]; incoming := incoming k |}).

Definition socket_recv (bufsize : nat) : Py socket bytes :=
  fun k =>
    match incoming k with
    | [] => (Returns [], k)
    | chunk :: later =>
      let data := firstn bufsize chunk in
      let left := skipn bufsize chunk in
      (Returns data,
       {| written := written k;
          incoming := match left with [] => later | _ => left :: later end |})
    end.

Record SpellmanEthernetInterface : Type := {
  interface : socket
}.

Definition on_interface {A} (m : Py socket A) : Py SpellmanEthernetInterface A :=
  fun self =>
    let (r, k) := m (interface self) in (r, {| interface := k |}).

(** [[
    def receive(self):
        sleep(0.01)
        data = self.interface.recv(1024)
        if LF.encode() in data:
            response, *rest = data.split(LF.encode())
            return response.decode()
        else:
            raise SocketError
    ]]
    The module defines no [SocketError] (and imports none), so evaluating
    the operand of that [raise] is itself the failure: a [NameError]. *)
Definition receive : Py SpellmanEthernetInterface str :=
  data <- on_interface (socket_recv 1024) ;;
  if contains x0a data then
    match split x0a data with
    | response :: rest => lift (decode response)
    | [] => raise ValueError
    end
  else raise (NameError "SocketError").

(** [[
    def send(self, mnemonic: str):
        tmp = [mnemonic]
        tmp.append(LF)
        commandstring = ''.join(tmp)
        self.interface.send(commandstring.encode())
    ]] *)
Definition send (mnemonic : str) : Py SpellmanEthernetInterface unit :=
  let tmp := [mnemonic] ++ [LF] in
  let commandstring := List.concat tmp in
  data <- lift (encode commandstring) ;;
  on_interface (socket_send data).

(** ** Python's [float] *)

(** The operations on [float] that the program uses, with the exceptions
    Python attaches to them. *)
Class PyFloat (F : Type) : Type := {
  (** the literals [0.0] and [1.0] *)
  lit0 : F;
  lit1 : F;
  (** [x * y] *)
  float_mul : F -> F -> F;
  (** [x / y]; [ZeroDivisionError] when [y == 0] *)
  float_truediv : F -> F -> outcome F;
  (** [math.floor(x)]; [OverflowError] on an infinity, [ValueError] on NaN *)
  math_floor : F -> outcome Z;
  (** the conversion of an [int] operand of a mixed [float]/[int] operation;
      [OverflowError] when the integer is too large *)
  float_of_int : Z -> outcome F
}.

(** *** IEEE-754 binary64, the arithmetic of CPython *)

Module Binary64.

Definition truediv (x y : float) : outcome float :=
  if PrimFloat.eqb y 0%float then Raises ZeroDivisionError
  else Returns (x / y)%float.

(** The integer [m * 2^e] rounded towards minus infinity. *)
Definition floor_finite (s : bool) (m : positive) (e : Z) : Z :=
  let z := if s then Zneg m else Zpos m in
  if (0 <=? e)%Z then (z * 2 ^ e)%Z else (z / 2 ^ (- e))%Z.

Definition floor (x : float) : outcome Z :=
  match Prim2SF x with
  | S754_zero _ => Returns 0%Z
  | S754_infinity _ => Raises OverflowError
  | S754_nan => Raises ValueError
  | S754_finite s m e => Returns (floor_finite s m e)
  end.

(** Round to nearest, ties to even; an integer that rounds beyond the
    largest finite double does not convert. *)
Definition of_int (n : Z) : outcome float :=
  if (Z.abs n <? 2 ^ 1024 - 2 ^ 970)%Z
  then Returns (SF2Prim (binary_normalize prec emax n 0 false))
  else Raises OverflowError.

(** The rational number a finite double stands for. *)
Definition finite_value (s : bool) (m : positive) (e : Z) : Q :=
  let z := if s then Zneg m else Zpos m in
  if (0 <=? e)%Z then inject_Z (z * 2 ^ e)
  else Qmake z (2 ^ Z.to_pos (- e)).

Definition value (x : float) : option Q :=
  match Prim2SF x with
  | S754_zero _ => Some 0%Q
  | S754_finite s m e => Some (finite_value s m e)
  | S754_infinity _ | S754_nan => None
  end.


Definition finite_nonzero (x : float) : bool :=
  match Prim2SF x with
  | S754_finite _ _ _ => true
  | _ => false
  end.

#[export] Instance binary64 : PyFloat float := {
  lit0 := 0%float;
  lit1 := 1%float;
  float_mul := PrimFloat.mul;
  float_truediv := truediv;
  math_floor := floor;
  float_of_int := of_int
}.

End Binary64.

(** *** Exact rational arithmetic *)

Module Exact.

Definition truediv (x y : Q) : outcome Q :=
  if Qeq_bool y 0 then Raises ZeroDivisionError else Returns (x / y)%Q.

#[export] Instance exact : PyFloat Q := {
  lit0 := 0%Q;
  lit1 := 1%Q;
  float_mul := Qmult;
  float_truediv := truediv;
  math_floor := fun x => Returns (Qfloor x);
  float_of_int := fun n => Returns (inject_Z n)
}.

End Exact.

Import (hints) Binary64.
Import (hints) Exact.

(** ** The device: [class Spellman(Device)] *)

Section Device.

Context {F : Type} {arith : PyFloat F}.

(** The [device_property] values, read from the Tango database before
    [init_device] runs. *)
Record device_properties : Type := {
  host : string;
  port : Z;
  voltage_range : F;
  current_range : F;
  filament_current_range : F;
  dac_resolution : Z;
  adc_resolution : Z
}.

(** The instance after [init_device]: its properties and the attributes
    [init_device] creates. *)
Record Spellman : Type := {
  properties : device_properties;
  connection : SpellmanEthernetInterface;
  _voltage_set_factor : F;
  _voltage_get_factor : F;
  _current_set_factor : F;
  _current_get_factor : F;
  _filament_current_get_factor : F;
  _current_setpoint : F;
  _voltage_setpoint : F
}.

Definition assign_connection (c : SpellmanEthernetInterface) (self : Spellman)
  : Spellman :=
  {| properties := properties self;
     connection := c;
     _voltage_set_factor := _voltage_set_factor self;
     _voltage_get_factor := _voltage_get_factor self;
     _current_set_factor := _current_set_factor self;
     _current_get_factor := _current_get_factor self;
     _filament_current_get_factor := _filament_current_get_factor self;
     _current_setpoint := _current_setpoint self;
     _voltage_setpoint := _voltage_setpoint self |}.

Definition assign_current_setpoint (x : F) (self : Spellman) : Spellman :=
  {| properties := properties self;
     connection := connection self;
     _voltage_set_factor := _voltage_set_factor self;
     _voltage_get_factor := _voltage_get_factor self;
     _current_set_factor := _current_set_factor self;
     _current_get_factor := _current_get_factor self;
     _filament_current_get_factor := _filament_current_get_factor self;
     _current_setpoint := x;
     _voltage_setpoint := _voltage_setpoint self |}.

Definition assign_voltage_setpoint (x : F) (self : Spellman) : Spellman :=
  {| properties := properties self;
     connection := connection self;
     _voltage_set_factor := _voltage_set_factor self;
     _voltage_get_factor := _voltage_get_factor self;
     _current_set_factor := _current_set_factor self;
     _current_get_factor := _current_get_factor self;
     _filament_current_get_factor := _filament_current_get_factor self;
     _current_setpoint := _current_setpoint self;
     _voltage_setpoint := x |}.

(** [self.connection.m(...)] *)
Definition on_connection {A} (m : Py SpellmanEthernetInterface A)
  : Py Spellman A :=
  fun self =>
    let (r, c) := m (connection self) in (r, assign_connection c self).

(** [dac_value in range(0, self.dac_resolution)] *)
Definition in_dac_range (dac_value : Z) (self : Spellman) : bool :=
  ((0 <=? dac_value) && (dac_value <? dac_resolution (properties self)))%Z.

(** [1.0 * dac_value * factor] *)
Definition quantized (dac_value : Z) (factor : F) : outcome F :=
  match float_of_int dac_value with
  | Returns k => Returns (float_mul (float_mul lit1 k) factor)
  | Raises e => Raises e
  end.

(** [[
    def set_voltage(self, voltage):
        dac_value = math.floor(voltage / self._voltage_set_factor)
        if dac_value in range(0, self.dac_resolution):
            setpoint = (1.0 * dac_value * self._voltage_set_factor)
        else:
            raise VoltageExceededError(dac_value)
        command = ":V {:d}".format(dac_value)
        self.connection.send(command)
        response = self.connection.receive()
        if response == "OK":
            self._voltage_setpoint = setpoint
            return
        else:
            raise ValueError
    ]] *)
Definition set_voltage (voltage : F) : Py Spellman unit :=
  self <- get ;;
  quotient <- lift (float_truediv voltage (_voltage_set_factor self)) ;;
  dac_value <- lift (math_floor quotient) ;;
  setpoint <- (if in_dac_range dac_value self
               then lift (quantized dac_value (_voltage_set_factor self))
               else raise (VoltageExceededError dac_value)) ;;
  let command := (str_lit ":V " ++ format_d dac_value)%list in
  on_connection (send command) ;;;
  response <- on_connection receive ;;
  if str_eq_dec response (str_lit "OK")
  then modify (assign_voltage_setpoint setpoint)
  else raise ValueError.

(** [set_current] is [set_voltage] on the current channel: [":C {:d}"],
    [_current_set_factor], [CurrentExceededError], [_current_setpoint]. *)
Definition set_current (current : F) : Py Spellman unit :=
  self <- get ;;
  quotient <- lift (float_truediv current (_current_set_factor self)) ;;
  dac_value <- lift (math_floor quotient) ;;
  setpoint <- (if in_dac_range dac_value self
               then lift (quantized dac_value (_current_set_factor self))
               else raise (CurrentExceededError dac_value)) ;;
  let command := (str_lit ":C " ++ format_d dac_value)%list in
  on_connection (send command) ;;;
  response <- on_connection receive ;;
  if str_eq_dec response (str_lit "OK")
  then modify (assign_current_setpoint setpoint)
  else raise ValueError.

(** The read side of the attribute [voltage_setpoint]. *)
Definition voltage_setpoint : Py Spellman F :=
  self <- get ;; ret (_voltage_setpoint self).

(** The read side of the attribute [current_setpoint]. *)
Definition current_setpoint : Py Spellman F :=
  self <- get ;; ret (_current_setpoint self).

(** [ex.message] exists on the [DACError] classes only. *)
Definition has_message (e : exn) : bool :=
  match e with
  | VoltageExceededError _ | CurrentExceededError _ => true
  | _ => false
  end.

(** [[
    try:
        ...
    except Exception as ex:
        self.error_stream(ex.message)
    ]]
    Logging leaves the instance alone; an exception without [message]
    turns into the [AttributeError] of the handler. *)
Definition logging_errors (body : Py Spellman unit) : Py Spellman unit :=
  fun self =>
    match body self with
    | (Returns tt, self') => (Returns tt, self')
    | (Raises ex, self') =>
      if has_message ex then (Returns tt, self')
      else (Raises (AttributeError "message"), self')
    end.

(** [@voltage_setpoint.write] *)
Definition voltage_setpoint_write (value : F) : Py Spellman unit :=
  logging_errors (set_voltage value).

(** [@current_setpoint.write] *)
Definition current_setpoint_write (value : F) : Py Spellman unit :=
  logging_errors (set_current value).

(** [[
    def interlock(self):
        command = ":ILOCK?"
        self.connection.send(command)
        response = self.connection.receive()
        if response == "open\n":
            self._current_setpoint = 0.0
            self._voltage_setpoint = 0.0
        return response
    ]] *)
Definition interlock : Py Spellman str :=
  let command := str_lit ":ILOCK?" in
  on_connection (send command) ;;;
  response <- on_connection receive ;;
  (if str_eq_dec response (str_lit "open" ++ [10%N])%list
   then modify (assign_current_setpoint lit0) ;;;
        modify (assign_voltage_setpoint lit0)
   else ret tt) ;;;
  ret response.

(** [[
    def enable(self):
        mnemonic = ":ON"
        self.set_voltage(0.0)
        self.set_current(0.0)
        self.connection.send(mnemonic)
        response = self.connection.receive()
        return response
    ]] *)
Definition enable : Py Spellman str :=
  let mnemonic := str_lit ":ON" in
  set_voltage lit0 ;;;
  set_current lit0 ;;;
  on_connection (send mnemonic) ;;;
  response <- on_connection receive ;;
  ret response.

Definition disable : Py Spellman str :=
  let mnemonic := str_lit ":OFF" in
  on_connection (send mnemonic) ;;;
  response <- on_connection receive ;;
  ret response.

Definition IDN : Py Spellman str :=
  let mnemonic := str_lit "*IDN?" in
  on_connection (send mnemonic) ;;;
  response <- on_connection receive ;;
  ret response.

(** *** Read-back attributes *)

(** [float(s)], the parser of the built-in [float]; the read-back
    attributes are the only code that depends on it. *)
Variable float_of_str : str -> outcome F.

(** [[
    command = ":V?"
    self.connection.send(command)
    response = float(self.connection.receive())
    return response * factor
    ]] *)
Definition readback (command : str) (factor : Spellman -> F) : Py Spellman F :=
  on_connection (send command) ;;;
  text <- on_connection receive ;;
  response <- lift (float_of_str text) ;;
  self <- get ;;
  ret (float_mul response (factor self)).

Definition voltage : Py Spellman F :=
  readback (str_lit ":V?") _voltage_get_factor.

Definition current : Py Spellman F :=
  readback (str_lit ":C?") _current_get_factor.

Definition filament : Py Spellman F :=
  readback (str_lit ":FIL?") _filament_current_get_factor.

(** *** Initialisation *)

(** [1.0*full_range/resolution] *)
Definition factor (full_range : F) (resolution : Z) : outcome F :=
  match float_of_int resolution with
  | Returns n => float_truediv (float_mul lit1 full_range) n
  | Raises e => Raises e
  end.

(** [init_device]: [connecting] is what the constructor
    [SpellmanEthernetInterface(self.host, self.port)] did, a connected
    interface or an exception.  Any exception inside the [try] ends the
    process ([sys.exit()]), which is [None] here. *)
Definition init_device (p : device_properties)
           (connecting : option SpellmanEthernetInterface) : option Spellman :=
  match connecting with
  | None => None
  | Some c =>
    match factor (voltage_range p) (dac_resolution p),
          factor (voltage_range p) (adc_resolution p),
          factor (current_range p) (dac_resolution p),
          factor (current_range p) (adc_resolution p),
          factor (filament_current_range p) (adc_resolution p) with
    | Returns vs, Returns vg, Returns cs, Returns cg, Returns fg =>
      Some {| properties := p;
              connection := c;
              _voltage_set_factor := vs;
              _voltage_get_factor := vg;
              _current_set_factor := cs;
              _current_get_factor := cg;
              _filament_current_get_factor := fg;
              _current_setpoint := lit0;
              _voltage_setpoint := lit0 |}
    | _, _, _, _, _ => None
    end
  end.

(** *** The operations a client can invoke *)

Inductive request : Type :=
| ReadVoltageSetpoint
| WriteVoltageSetpoint (value : F)
| ReadCurrentSetpoint
| WriteCurrentSetpoint (value : F)
| ReadVoltage
| ReadCurrent
| ReadFilament
| ReadInterlock
| Enable
| Disable
| Identify.

(** The instance after serving one request, whatever was returned or
    raised to the client. *)
Definition serve (r : request) (self : Spellman) : Spellman :=
  match r with
  | ReadVoltageSetpoint => snd (voltage_setpoint self)
  | WriteVoltageSetpoint value => snd (voltage_setpoint_write value self)
  | ReadCurrentSetpoint => snd (current_setpoint self)
  | WriteCurrentSetpoint value => snd (current_setpoint_write value self)
  | ReadVoltage => snd (voltage self)
  | ReadCurrent => snd (current self)
  | ReadFilament => snd (filament self)
  | ReadInterlock => snd (interlock self)
  | Enable => snd (enable self)
  | Disable => snd (disable self)
  | Identify => snd (IDN self)
  end.

(** The instances that exist at some point of a run: the one
    [init_device] built on a fresh connection (nothing written yet,
    anything may arrive), and any instance reached from it by requests. *)
Inductive reachable (p : device_properties) : Spellman -> Prop :=
| reachable_init : forall arrivals self,
    init_device p
      (Some {| interface := {| written := []; incoming := arrivals |} |})
    = Some self ->
    reachable p self
| reachable_serve : forall r self,
    reachable p self -> reachable p (serve r self).

End Device.

Arguments device_properties F : clear implicits.
Arguments Spellman F : clear implicits.
Arguments request F : clear implicits.


(** ** Vocabulary of the statements *)

(** Text made of ASCII characters only. *)
Definition is_ascii (s : str) : bool := forallb (fun c => (c <? 128)%N) s.

(** The bytes [send] writes for an ASCII mnemonic: its characters and the
    line feed. *)
Definition frame (mnemonic : str) : bytes :=
  List.map byte_of_N (mnemonic ++ LF).

(** An interface that has written [w] and will be delivered [i]. *)
Definition link (w i : list bytes) : SpellmanEthernetInterface :=
  {| interface := {| written := w; incoming := i |} |}.

Section Channels.

Context {F : Type} {arith : PyFloat F}.

(** The two channels that have a set-point; [set_voltage] and
    [set_current] are the same text up to the four names below. *)
Inductive channel : Type := Voltage | Current.

Definition commit (ch : channel) : F -> Py (Spellman F) unit :=
  match ch with Voltage => set_voltage | Current => set_current end.

Definition set_factor (ch : channel) : Spellman F -> F :=
  match ch with
  | Voltage => _voltage_set_factor
  | Current => _current_set_factor
  end.

Definition setpoint (ch : channel) : Spellman F -> F :=
  match ch with
  | Voltage => _voltage_setpoint
  | Current => _current_setpoint
  end.

Definition assign_setpoint (ch : channel) : F -> Spellman F -> Spellman F :=
  match ch with
  | Voltage => assign_voltage_setpoint
  | Current => assign_current_setpoint
  end.

Definition read_setpoint (ch : channel) : Py (Spellman F) F :=
  match ch with
  | Voltage => voltage_setpoint
  | Current => current_setpoint
  end.

Definition exceeded (ch : channel) : Z -> exn :=
  match ch with
  | Voltage => VoltageExceededError
  | Current => CurrentExceededError
  end.

(** [":V {:d}".format(dac_value)], [":C {:d}".format(dac_value)] *)
Definition set_command (ch : channel) (dac_value : Z) : str :=
  match ch with
  | Voltage => str_lit ":V " ++ format_d dac_value
  | Current => str_lit ":C " ++ format_d dac_value
  end.

Definition sent_log (self : Spellman F) : list bytes :=
  written (interface (connection self)).

Definition inbox (self : Spellman F) : list bytes :=
  incoming (interface (connection self)).

(** The interface of [self] once [frames] more have been written. *)
Definition having_sent (frames : list bytes) (self : Spellman F)
  : SpellmanEthernetInterface :=
  link (sent_log self ++ frames) (inbox self).

End Channels.


Section Invariants.

Context {F : Type} {arith : PyFloat F}.

(** A stored set-point is the [0.0] of [init_device] or the quantized
    value of a DAC code that passed the range check. *)
Definition committed (self : Spellman F) (factor x : F) : Prop :=
  x = lit0
  \/ exists dac_value,
       (0 <= dac_value < dac_resolution (properties self))%Z
       /\ quantized dac_value factor = Returns x.

(** The properties are those the device was started with and the set
    factors are the ones [init_device] computed from them. *)
Definition configured (p : device_properties F) (self : Spellman F) : Prop :=
  properties self = p
  /\ factor (voltage_range p) (dac_resolution p)
     = Returns (_voltage_set_factor self)
  /\ factor (current_range p) (dac_resolution p)
     = Returns (_current_set_factor self).

Definition setpoints_committed (p : device_properties F) (self : Spellman F)
  : Prop :=
  configured p self
  /\ committed self (_voltage_set_factor self) (_voltage_setpoint self)
  /\ committed self (_current_set_factor self) (_current_setpoint self).

(** The mnemonics that carry no DAC code. *)
Definition mnemonics : list str :=
  [str_lit ":V?"; str_lit ":C?"; str_lit ":FIL?"; str_lit ":ILOCK?";
   str_lit ":ON"; str_lit ":OFF"; str_lit "*IDN?"].

(** A frame of the protocol for a DAC of the given resolution: a plain
    mnemonic, or a set command whose code lies in the DAC range. *)
Definition wire_frame (resolution : Z) (f : bytes) : Prop :=
  In f (List.map frame mnemonics)
  \/ exists ch dac_value,
       (0 <= dac_value < resolution)%Z /\ f = frame (set_command ch dac_value).

(** Everything written so far is such a frame. *)
Definition wire_in_range (p : device_properties F) (self : Spellman F) : Prop :=
  properties self = p
  /\ Forall (wire_frame (dac_resolution p)) (sent_log self).



End Invariants.


(** ** A bench set-up

    The controller on a supply of 25.6 kV and 10 mA full scale with the
    default resolutions, as [init_device] leaves it; the same with the
    voltage range entered as -25.6; and the first in exact arithmetic. *)

Module Bench.

Local Open Scope Z_scope.

(** One response line as it arrives: the text and the line feed. *)
Definition line (s : string) : bytes := (list_byte_of_string s ++ [x0a])%list.

Definition psu : device_properties float := {|
  host := "spellman";
  port := 23;
  voltage_range := (0x1.999999999999ap+4)%float;          (* 25.6 *)
  current_range := 10%float;
  filament_current_range := 5%float;
  dac_resolution := 256;
  adc_resolution := 1024
|}.

Definition supply (arrivals : list bytes) : Spellman float := {|
  properties := psu;
  connection := link [] arrivals;
  _voltage_set_factor := (0x1.999999999999ap-4)%float;    (* 0.1 *)
  _voltage_get_factor := (0x1.999999999999ap-6)%float;    (* 0.025 *)
  _current_set_factor := (0x1.4p-5)%float;                (* 0.0390625 *)
  _current_get_factor := (0x1.4p-7)%float;
  _filament_current_get_factor := (0x1.4p-8)%float;
  _current_setpoint := 0%float;
  _voltage_setpoint := 0%float
|}.

Definition negative_psu : device_properties float := {|
  host := "spellman";
  port := 23;
  voltage_range := (-0x1.999999999999ap+4)%float;         (* -25.6 *)
  current_range := 10%float;
  filament_current_range := 5%float;
  dac_resolution := 256;
  adc_resolution := 1024
|}.

Definition negative_supply (arrivals : list bytes) : Spellman float := {|
  properties := negative_psu;
  connection := link [] arrivals;
  _voltage_set_factor := (-0x1.999999999999ap-4)%float;   (* -0.1 *)
  _voltage_get_factor := (-0x1.999999999999ap-6)%float;
  _current_set_factor := (0x1.4p-5)%float;
  _current_get_factor := (0x1.4p-7)%float;
  _filament_current_get_factor := (0x1.4p-8)%float;
  _current_setpoint := 0%float;
  _voltage_setpoint := 0%float
|}.

Definition exact_psu : device_properties Q := {|
  host := "spellman";
  port := 23;
  voltage_range := (256 # 10)%Q;
  current_range := 10%Q;
  filament_current_range := 5%Q;
  dac_resolution := 256;
  adc_resolution := 1024
|}.

Definition exact_supply (arrivals : list bytes) : Spellman Q := {|
  properties := exact_psu;
  connection := link [] arrivals;
  _voltage_set_factor := (1 * (256 # 10) / inject_Z 256)%Q;
  _voltage_get_factor := (1 * (256 # 10) / inject_Z 1024)%Q;
  _current_set_factor := (1 * 10 / inject_Z 256)%Q;
  _current_get_factor := (1 * 10 / inject_Z 1024)%Q;
  _filament_current_get_factor := (1 * 5 / inject_Z 1024)%Q;
  _current_setpoint := 0%Q;
  _voltage_setpoint := 0%Q
|}.

(** A [float(s)] that accepts nothing; the set-point operations never
    call the parser. *)
Definition rejecting (s : str) : outcome float := Raises ValueError.

(** 5.05 and its quotient by 0.1, 50.49999999999999. *)
Definition v5_05 : float := (0x1.4333333333333p+2)%float.
Definition q5_05 : float := (0x1.93fffffffffffp+5)%float.


End Bench.




(** ** Vocabulary of the further properties *)

Section Operations.

Context {F : Type} {arith : PyFloat F}.

(** The write side of the set-point attribute of a channel. *)
Definition setpoint_write (ch : channel) : F -> Py (Spellman F) unit :=
  match ch with
  | Voltage => voltage_setpoint_write
  | Current => current_setpoint_write
  end.

Definition other (ch : channel) : channel :=
  match ch with Voltage => Current | Current => Voltage end.

(** The frames an operation adds to what [self] had written. *)
Definition written_by {A} (m : Py (Spellman F) A) (self : Spellman F)
  : list bytes :=
  skipn (List.length (sent_log self)) (sent_log (snd (m self))).

(** The requests that are neither a set-point write nor [enable]. *)
Definition commits_nothing (r : request F) : bool :=
  match r with
  | WriteVoltageSetpoint _ | WriteCurrentSetpoint _ | Enable => false
  | _ => true
  end.

(** The frames such a request writes. *)
Definition query (r : request F) : list str :=
  match r with
  | ReadVoltage => [str_lit ":V?"]
  | ReadCurrent => [str_lit ":C?"]
  | ReadFilament => [str_lit ":FIL?"]
  | ReadInterlock => [str_lit ":ILOCK?"]
  | Disable => [str_lit ":OFF"]
  | Identify => [str_lit "*IDN?"]
  | _ => []
  end.

(** The properties and the five factors of [self'] are those of [self]. *)
Definition same_configuration (self self' : Spellman F) : Prop :=
  properties self' = properties self
  /\ _voltage_set_factor self' = _voltage_set_factor self
  /\ _voltage_get_factor self' = _voltage_get_factor self
  /\ _current_set_factor self' = _current_set_factor self
  /\ _current_get_factor self' = _current_get_factor self
  /\ _filament_current_get_factor self' = _filament_current_get_factor self.

(** Two instances that differ in their connection at most. *)
Definition same_but_connection (self self' : Spellman F) : Prop :=
  same_configuration self self'
  /\ _current_setpoint self' = _current_setpoint self
  /\ _voltage_setpoint self' = _voltage_setpoint self.

(** The instance after a sequence of requests, served one by one. *)
Definition serve_all (float_of_str : str -> outcome F)
           (rs : list (request F)) (self : Spellman F) : Spellman F :=
  fold_left (fun s r => serve float_of_str r s) rs self.

(** From [self] to [self'] the device wrote at most [n] frames, all of
    them after those it had written, and read no more arrivals than it
    wrote frames. *)
Definition exchanged (n : nat) (self self' : Spellman F) : Prop :=
  exists frames,
    sent_log self' = (sent_log self ++ frames)%list
    /\ (List.length frames <= n)%nat
    /\ (List.length (inbox self)
        <= List.length (inbox self') + List.length frames)%nat.

End Operations.

(** One protocol line: a body that is not empty and holds no line feed,
    and the line feed that ends it. *)
Definition one_line (f : bytes) : Prop :=
  exists body, f = (body ++ [x0a])%list /\ body <> [] /\ ~ In x0a body.

(** The doubles Python calls [nan] and [inf]/[-inf]. *)
Definition is_nan64 (x : float) : bool :=
  match Prim2SF x with S754_nan => true | _ => false end.

Definition is_inf64 (x : float) : bool :=
  match Prim2SF x with S754_infinity _ => true | _ => false end.

(** The bench supply of [Bench] with the DAC resolution entered as -256,
    as [init_device] leaves it. *)
Definition inverted_psu : device_properties float := {|
  host := "spellman";
  port := 23;
  voltage_range := (0x1.999999999999ap+4)%float;
  current_range := 10%float;
  filament_current_range := 5%float;
  dac_resolution := (-256)%Z;
  adc_resolution := 1024%Z
|}.

Definition inverted_supply (arrivals : list bytes) : Spellman float := {|
  properties := inverted_psu;
  connection := link [] arrivals;
  _voltage_set_factor := (-0x1.999999999999ap-4)%float;
  _voltage_get_factor := (0x1.999999999999ap-6)%float;
  _current_set_factor := (-0x1.4p-5)%float;
  _current_get_factor := (0x1.4p-7)%float;
  _filament_current_get_factor := (0x1.4p-8)%float;
  _current_setpoint := 0%float;
  _voltage_setpoint := 0%float
|}.

Definition is_zero64 (x : float) : bool :=
  match Prim2SF x with S754_zero _ => true | _ => false end.



(** ** The codec and the framing *)

Lemma byte_to_N_LF (b : byte) : Byte.to_N b = 10%N -> b = x0a.
Proof.
  intros E. pose proof (Byte.of_to_N b) as R. rewrite E in R.
  simpl in R. congruence.
Qed.

Lemma in_range_spec lo hi b :
  in_range lo hi b = true <-> (lo <= b /\ b <= hi)%N.
Proof.
  unfold in_range. rewrite andb_true_iff, !N.leb_le. tauto.
Qed.

Lemma utf8_lead_bounds b0 lo hi t :
  utf8_lead b0 = Some (lo, hi, t) ->
  match t with
  | Trail1 => (0xC2 <= b0 /\ 0x80 <= lo)%N
  | Trail2 => (0xE0 <= b0 /\ 0x80 <= lo /\ (b0 = 0xE0 -> 0xA0 <= lo))%N
  | Trail3 => (0xF0 <= b0 /\ 0x80 <= lo /\ (b0 = 0xF0 -> 0x90 <= lo))%N
  end.
Proof.
  unfold utf8_lead.
  repeat match goal with
         | |- context [in_range ?a ?b ?c] =>
           let E := fresh "E" in
           destruct (in_range a b c) eqn:E;
           [apply in_range_spec in E|]
         | |- context [(?a =? ?b)%N] =>
           let E := fresh "E" in
           destruct (N.eqb_spec a b) as [E|E]
         end;
    intros R; inversion R; subst; lia.
Qed.

(** A code point decoded from more than one byte is not ASCII; in
    particular a line feed in the text is a line-feed byte in the data. *)
Lemma utf8_decode_LF : forall n bs s,
  (List.length bs <= n)%nat ->
  utf8_decode bs = Some s -> In 10%N s -> In 10%N bs.
Proof.
  induction n as [|n IH]; intros bs s Hlen.
  - destruct bs; [|simpl in Hlen; lia]. simpl. intros R; inversion R; auto.
  - destruct bs as [|b0 t0]; [simpl; intros R; inversion R; auto|].
    simpl in Hlen. cbn [utf8_decode].
    destruct (N.ltb_spec b0 0x80) as [Hlt|Hge].
    + destruct (utf8_decode t0) as [s'|] eqn:E; simpl; [|discriminate].
      intros R; inversion R; subst s. intros [->|Hin]; [now left|].
      right. apply (IH t0 s'); auto; lia.
    + destruct (utf8_lead b0) as [[[lo hi] t]|] eqn:L; [|discriminate].
      apply utf8_lead_bounds in L.
      destruct t.
      * destruct t0 as [|b1 t1]; [discriminate|].
        destruct (in_range lo hi b1) eqn:R1; [|discriminate].
        apply in_range_spec in R1.
        destruct (utf8_decode t1) as [s'|] eqn:E; simpl; [|discriminate].
        intros R; inversion R; subst s. intros [Hc|Hin].
        -- unfold cp2 in Hc. lia.
        -- right; right. apply (IH t1 s'); auto. simpl in Hlen; lia.
      * destruct t0 as [|b1 [|b2 t2]]; try discriminate.
        destruct (in_range lo hi b1) eqn:R1; simpl; [|discriminate].
        destruct (cont b2) eqn:R2; [|discriminate].
        apply in_range_spec in R1. apply in_range_spec in R2.
        destruct (utf8_decode t2) as [s'|] eqn:E; simpl; [|discriminate].
        intros R; inversion R; subst s. intros [Hc|Hin].
        -- unfold cp3 in Hc. destruct (N.eq_dec b0 0xE0); lia.
        -- do 3 right. apply (IH t2 s'); auto. simpl in Hlen; lia.
      * destruct t0 as [|b1 [|b2 [|b3 t3]]]; try discriminate.
        destruct (in_range lo hi b1) eqn:R1; simpl; [|discriminate].
        destruct (cont b2) eqn:R2; simpl; [|discriminate].
        destruct (cont b3) eqn:R3; [|discriminate].
        apply in_range_spec in R1. apply in_range_spec in R2.
        apply in_range_spec in R3.
        destruct (utf8_decode t3) as [s'|] eqn:E; simpl; [|discriminate].
        intros R; inversion R; subst s. intros [Hc|Hin].
        -- unfold cp4 in Hc. destruct (N.eq_dec b0 0xF0); lia.
        -- do 4 right. apply (IH t3 s'); auto. simpl in Hlen; lia.
Qed.

Lemma decode_LF data s :
  decode data = Returns s -> In 10%N s -> In x0a data.
Proof.
  unfold decode.
  destruct (utf8_decode (List.map Byte.to_N data)) as [s'|] eqn:E;
    [|discriminate].
  intros R; inversion R; subst s'. intros Hin.
  apply (utf8_decode_LF (List.length (List.map Byte.to_N data))) in E; auto.
  apply in_map_iff in E. destruct E as [b [Hb Hin']].
  apply byte_to_N_LF in Hb. now subst b.
Qed.

Lemma utf8_encode_ascii s : is_ascii s = true -> utf8_encode s = Some s.
Proof.
  induction s as [|c t IH]; simpl; [reflexivity|].
  rewrite andb_true_iff. intros [Hc Ht].
  unfold utf8_encode_cp. rewrite Hc, (IH Ht). reflexivity.
Qed.

Lemma is_ascii_app s t : is_ascii (s ++ t) = is_ascii s && is_ascii t.
Proof. apply forallb_app. Qed.

Lemma is_ascii_digits d : is_ascii (digits d) = true.
Proof. induction d; simpl; auto. Qed.

Lemma is_ascii_format_d n : is_ascii (format_d n) = true.
Proof.
  unfold format_d. destruct (Z.to_int n); simpl; apply is_ascii_digits.
Qed.

Lemma encode_ascii s :
  is_ascii s = true -> encode (s ++ LF) = Returns (frame s).
Proof.
  intros H. unfold encode, frame.
  rewrite utf8_encode_ascii; [reflexivity|].
  rewrite is_ascii_app, H. reflexivity.
Qed.

Lemma contains_In sep data : contains sep data = true <-> In sep data.
Proof.
  unfold contains. rewrite existsb_exists. split.
  - intros [b [Hin E]]. apply Byte.byte_dec_bl in E. now subst b.
  - intros Hin. exists sep. split; [assumption|]. now apply Byte.byte_dec_lb.
Qed.

Lemma contains_not_In sep data : contains sep data = false <-> ~ In sep data.
Proof.
  rewrite <- contains_In. destruct (contains sep data); split; intros;
    congruence.
Qed.

(** The first piece of a split is what precedes the first separator. *)
Lemma split_first_piece sep line rest :
  ~ In sep line ->
  split sep (line ++ sep :: rest) = line :: split sep rest.
Proof.
  induction line as [|b t IH]; intros Hnot; simpl.
  - rewrite (Byte.byte_dec_lb (eq_refl sep)). reflexivity.
  - destruct (Byte.eqb b sep) eqn:E.
    + apply Byte.byte_dec_bl in E. subst b. exfalso. apply Hnot. now left.
    + rewrite IH; [reflexivity|]. intros Hin. apply Hnot. now right.
Qed.

Lemma split_piece_free sep data piece pieces :
  split sep data = piece :: pieces -> ~ In sep piece.
Proof.
  revert piece pieces.
  induction data as [|b t IH]; intros piece pieces; simpl.
  - intros R; inversion R. auto.
  - destruct (Byte.eqb b sep) eqn:E.
    + intros R; inversion R. auto.
    + destruct (split sep t) as [|p ps] eqn:S.
      * intros R; inversion R; subst. intros [->|[]].
        rewrite (Byte.byte_dec_lb (eq_refl sep)) in E. discriminate.
      * intros R; inversion R; subst. intros [->|Hin].
        -- rewrite (Byte.byte_dec_lb (eq_refl sep)) in E. discriminate.
        -- eapply IH; [reflexivity|assumption].
Qed.


(** ** The transport, step by step *)

Lemma receive_unfold (c : SpellmanEthernetInterface) :
  receive c =
  let data := match socket_recv 1024 (interface c) with
              | (Returns data, _) => data
              | (Raises _, _) => []
              end in
  let c' := {| interface := snd (socket_recv 1024 (interface c)) |} in
  if contains x0a data then
    match split x0a data with
    | response :: _ => (decode response, c')
    | [] => (Raises ValueError, c')
    end
  else (Raises (NameError "SocketError"), c').
Proof.
  unfold receive, bind, on_interface.
  destruct (socket_recv 1024 (interface c)) as [[data|e] k] eqn:E.
  - cbn. destruct (contains x0a data); [|reflexivity].
    destruct (split x0a data); reflexivity.
  - unfold socket_recv in E. destruct (incoming (interface c)); discriminate.
Qed.

Lemma socket_recv_returns n k :
  exists data, fst (socket_recv n k) = Returns data.
Proof.
  unfold socket_recv. destruct (incoming k); eexists; reflexivity.
Qed.

(** [receive] never changes what has been written. *)
Lemma receive_written c :
  written (interface (snd (receive c))) = written (interface c).
Proof.
  rewrite receive_unfold. cbv zeta.
  assert (W : written (snd (socket_recv 1024 (interface c)))
              = written (interface c)).
  { unfold socket_recv. destruct (incoming (interface c)); reflexivity. }
  destruct (contains x0a _); [destruct (split x0a _)|]; exact W.
Qed.

(** The text [receive] returns holds no line feed. *)
Lemma receive_no_LF c s c' :
  receive c = (Returns s, c') -> ~ In 10%N s.
Proof.
  rewrite receive_unfold. cbv zeta.
  destruct (contains x0a _); [|discriminate].
  destruct (split x0a _) as [|response rest] eqn:S; [discriminate|].
  intros R. inversion R as [[D C]]. intros Hin.
  apply (decode_LF _ _ D) in Hin.
  exact (split_piece_free _ _ _ _ S Hin).
Qed.

Lemma receive_line w line rest later :
  ~ In x0a line ->
  (List.length (line ++ x0a :: rest) <= 1024)%nat ->
  receive (link w ((line ++ x0a :: rest) :: later))
  = (decode line, link w later).
Proof.
  intros Hline Hlen.
  rewrite receive_unfold. unfold link, socket_recv. cbn [interface incoming written].
  rewrite (firstn_all2 _ Hlen), (skipn_all2 _ Hlen). cbn [fst snd].
  assert (C : contains x0a (line ++ x0a :: rest) = true).
  { apply contains_In, in_or_app. right. now left. }
  rewrite C, (split_first_piece _ _ _ Hline). reflexivity.
Qed.

Lemma send_ascii mnemonic c :
  is_ascii mnemonic = true ->
  send mnemonic c
  = (Returns tt,
     link (written (interface c) ++ [frame mnemonic]) (incoming (interface c))).
Proof.
  intros H. unfold send, bind, lift. cbn [List.concat List.app].
  rewrite app_nil_r, (encode_ascii _ H). reflexivity.
Qed.


(** ** Framing of responses *)




(** C10. When the data of one read holds a terminator, [receive] returns
    the decoding of the bytes before the first terminator only.  Everything
    after that terminator, further complete lines included, is dropped: the
    outcome and the interface left behind are the same whatever followed
    the terminator, the interface keeps nothing but the socket, and the
    next [receive] reads the next arrival. *)
Theorem receive_discards_rest w line rest later :
  ~ In x0a line ->
  (List.length (line ++ x0a :: rest) <= 1024)%nat ->
  receive (link w ((line ++ x0a :: rest) :: later))
  = (decode line, link w later)
  /\ receive (link w ((line ++ x0a :: rest) :: later))
     = receive (link w ((line ++ [x0a]) :: later))
  /\ (receive ;;; receive) (link w ((line ++ x0a :: rest) :: later))
     = match decode line with
       | Returns _ => receive (link w later)
       | Raises e => (Raises e, link w later)
       end.
Proof.
  intros Hline Hlen.
  pose proof (receive_line w line rest later Hline Hlen) as E.
  split; [exact E|split].
  - rewrite E. symmetry. apply receive_line; [assumption|].
    rewrite length_app in *. cbn [List.length] in *. lia.
  - unfold bind. rewrite E. destruct (decode line); reflexivity.
Qed.


(** ** Binary64: the floor is the floor of the value *)





(** ** Binary64: requests for zero *)

Lemma Prim2SF_zero : Prim2SF 0%float = S754_zero false.
Proof. vm_compute. reflexivity. Qed.



(** On a set factor that is finite and not zero, a request for [0.0]
    divides without error and has code 0. *)
Lemma zero_request (f : float) :
  Binary64.finite_nonzero f = true ->
  float_truediv 0%float f = Returns (0 / f)%float
  /\ math_floor (0 / f)%float = Returns 0%Z.
Proof.
  unfold Binary64.finite_nonzero. intros H.
  cbn [float_truediv math_floor Binary64.binary64].
  unfold Binary64.truediv, Binary64.floor.
  rewrite eqb_spec, div_spec, Prim2SF_zero.
  destruct (Prim2SF f) as [s|s| |s m e]; try discriminate.
  destruct s; split; reflexivity.
Qed.

(** A DAC code that passed the range check converts to [float] whenever
    [dac_resolution] itself is below the overflow threshold of the
    conversion, as every 64-bit property value is. *)
Lemma of_int_returns (k N : Z) :
  (0 <= k < N)%Z -> (N <= 2 ^ 1024 - 2 ^ 970)%Z ->
  float_of_int k
  = Returns (SF2Prim (binary_normalize prec emax k 0 false)).
Proof.
  intros Hk HN. cbn [float_of_int Binary64.binary64].
  unfold Binary64.of_int.
  destruct (Z.ltb_spec (Z.abs k) (2 ^ 1024 - 2 ^ 970)) as [_|H];
    [reflexivity|].
  rewrite Z.abs_eq in H by lia. lia.
Qed.
(** ** Exact arithmetic *)

Section ExactArithmetic.

Import Exact.
Open Scope Q_scope.





End ExactArithmetic.


Section ExactSteps.

Import (hints) Exact.
Open Scope Q_scope.



End ExactSteps.


(** ** The set-point commit, case by case *)

Section Commit.

Context {F : Type} {arith : PyFloat F}.

Lemma is_ascii_set_command ch k : is_ascii (set_command ch k) = true.
Proof.
  destruct ch; unfold set_command; rewrite is_ascii_app, is_ascii_format_d;
    reflexivity.
Qed.

Lemma on_connection_send mnemonic (self : Spellman F) :
  is_ascii mnemonic = true ->
  on_connection (send mnemonic) self
  = (Returns tt, assign_connection (having_sent [frame mnemonic] self) self).
Proof.
  intros H. unfold on_connection. rewrite (send_ascii _ _ H). reflexivity.
Qed.

(** Every way through [set_voltage] and [set_current]. *)
Lemma commit_cases ch v (self : Spellman F) :
  commit ch v self =
  match float_truediv v (set_factor ch self) with
  | Raises e => (Raises e, self)
  | Returns quotient =>
    match math_floor quotient with
    | Raises e => (Raises e, self)
    | Returns dac_value =>
      if in_dac_range dac_value self then
        match quantized dac_value (set_factor ch self) with
        | Raises e => (Raises e, self)
        | Returns sp =>
          match receive (having_sent [frame (set_command ch dac_value)] self) with
          | (Returns response, c) =>
            if str_eq_dec response (str_lit "OK")
            then (Returns tt, assign_setpoint ch sp (assign_connection c self))
            else (Raises ValueError, assign_connection c self)
          | (Raises e, c) => (Raises e, assign_connection c self)
          end
        end
      else (Raises (exceeded ch dac_value), self)
    end
  end.
Proof.
  destruct ch; cbn [commit set_factor exceeded assign_setpoint];
    unfold set_voltage, set_current, bind, get, lift, raise, modify;
    cbv beta;
    (destruct (float_truediv v _) as [q|e]; [|reflexivity]);
    (destruct (math_floor q) as [k|e]; [|reflexivity]);
    (destruct (in_dac_range k self); [|reflexivity]);
    (destruct (quantized k _) as [sp|e]; [|reflexivity]);
    [ pose proof (on_connection_send _ self (is_ascii_set_command Voltage k)) as S
    | pose proof (on_connection_send _ self (is_ascii_set_command Current k)) as S ];
    cbn [set_command] in S |- *; rewrite S;
    unfold on_connection; cbn [connection assign_connection];
    (destruct (receive _) as [[r|e] c]; [|reflexivity]);
    destruct (str_eq_dec r (str_lit "OK")); reflexivity.
Qed.

Lemma in_dac_range_spec k (self : Spellman F) :
  in_dac_range k self = true
  <-> (0 <= k < dac_resolution (properties self))%Z.
Proof.
  unfold in_dac_range. rewrite andb_true_iff, Z.leb_le, Z.ltb_lt. tauto.
Qed.

Lemma sent_log_assign_connection c (self : Spellman F) :
  sent_log (assign_connection c self) = written (interface c).
Proof. reflexivity. Qed.

Lemma sent_log_assign_setpoint ch x (self : Spellman F) :
  sent_log (assign_setpoint ch x self) = sent_log self.
Proof. destruct ch; reflexivity. Qed.

Lemma written_after_receive frames (self : Spellman F) :
  written (interface (snd (receive (having_sent frames self))))
  = sent_log self ++ frames.
Proof. rewrite receive_written. reflexivity. Qed.

(** What a commit leaves on the wire: nothing, or one set command whose
    code passed the range check. *)
Lemma commit_sends ch v (self : Spellman F) :
  sent_log (snd (commit ch v self)) = sent_log self
  \/ exists dac_value,
       (0 <= dac_value < dac_resolution (properties self))%Z /\
       sent_log (snd (commit ch v self))
       = sent_log self ++ [frame (set_command ch dac_value)].
Proof.
  rewrite commit_cases.
  destruct (float_truediv v _) as [q|e]; [|now left].
  destruct (math_floor q) as [k|e]; [|now left].
  destruct (in_dac_range k self) eqn:R; [|now left].
  destruct (quantized k _) as [sp|e]; [|now left].
  right. exists k. split; [now apply in_dac_range_spec|].
  pose proof (written_after_receive [frame (set_command ch k)] self) as W.
  destruct (receive _) as [[r|e] c]; cbn [snd] in W |- *.
  - destruct (str_eq_dec r (str_lit "OK")); cbn [snd];
      rewrite ?sent_log_assign_setpoint, sent_log_assign_connection;
      exact W.
  - rewrite sent_log_assign_connection. exact W.
Qed.

(** The acknowledged commit: the one path that stores a set-point. *)
Lemma commit_acknowledged ch v (self : Spellman F) quotient dac_value k c :
  float_truediv v (set_factor ch self) = Returns quotient ->
  math_floor quotient = Returns dac_value ->
  (0 <= dac_value < dac_resolution (properties self))%Z ->
  float_of_int dac_value = Returns k ->
  receive (having_sent [frame (set_command ch dac_value)] self)
  = (Returns (str_lit "OK"), c) ->
  commit ch v self
  = (Returns tt,
     assign_setpoint ch (float_mul (float_mul lit1 k) (set_factor ch self))
       (assign_connection c self)).
Proof.
  intros Hq Hk Hin Hconv Hrecv.
  rewrite commit_cases, Hq, Hk.
  apply in_dac_range_spec in Hin. rewrite Hin.
  unfold quantized. rewrite Hconv, Hrecv.
  destruct (str_eq_dec (str_lit "OK") (str_lit "OK")) as [_|N];
    [reflexivity|now destruct N].
Qed.

(** A commit changes neither the properties nor the factors. *)
Lemma commit_properties ch v (self : Spellman F) :
  properties (snd (commit ch v self)) = properties self.
Proof.
  rewrite commit_cases.
  destruct (float_truediv v _) as [q|e]; [|reflexivity].
  destruct (math_floor q) as [k|e]; [|reflexivity].
  destruct (in_dac_range k self); [|reflexivity].
  destruct (quantized k _) as [sp|e]; [|reflexivity].
  destruct (receive _) as [[r|e] c]; [|reflexivity].
  destruct (str_eq_dec r (str_lit "OK")); destruct ch; reflexivity.
Qed.

(** C3. When the DAC code [floor(v/set_factor)] passes the range check
    and the controller answers ["OK"], the commit returns and the stored
    set-point of that channel is the quantized value
    [1.0 * floor(v/set_factor) * set_factor], which is also what reading
    the set-point attribute returns afterwards. *)
Theorem commit_stores_quantized ch v (self : Spellman F)
        quotient dac_value k c :
  float_truediv v (set_factor ch self) = Returns quotient ->
  math_floor quotient = Returns dac_value ->
  (0 <= dac_value < dac_resolution (properties self))%Z ->
  float_of_int dac_value = Returns k ->
  receive (having_sent [frame (set_command ch dac_value)] self)
  = (Returns (str_lit "OK"), c) ->
  let stored := float_mul (float_mul lit1 k) (set_factor ch self) in
  commit ch v self
  = (Returns tt, assign_setpoint ch stored (assign_connection c self))
  /\ setpoint ch (snd (commit ch v self)) = stored
  /\ fst (read_setpoint ch (snd (commit ch v self))) = Returns stored.
Proof.
  intros Hq Hk Hin Hconv Hrecv stored.
  rewrite (commit_acknowledged ch v self quotient dac_value k c
             Hq Hk Hin Hconv Hrecv).
  fold stored. destruct ch; repeat split; reflexivity.
Qed.

(** C4. When the DAC code passes the range check and the text read after
    the set command is anything but ["OK"] (the empty text included), the
    commit raises the bare [ValueError] of the response check, and both
    stored set-points keep their prior values. *)
Theorem commit_rejects_bad_response ch v (self : Spellman F)
        quotient dac_value k response c :
  float_truediv v (set_factor ch self) = Returns quotient ->
  math_floor quotient = Returns dac_value ->
  (0 <= dac_value < dac_resolution (properties self))%Z ->
  float_of_int dac_value = Returns k ->
  receive (having_sent [frame (set_command ch dac_value)] self)
  = (Returns response, c) ->
  response <> str_lit "OK" ->
  commit ch v self = (Raises ValueError, assign_connection c self)
  /\ _voltage_setpoint (snd (commit ch v self)) = _voltage_setpoint self
  /\ _current_setpoint (snd (commit ch v self)) = _current_setpoint self.
Proof.
  intros Hq Hk Hin Hconv Hrecv Hbad.
  assert (E : commit ch v self
              = (Raises ValueError, assign_connection c self)).
  { rewrite commit_cases, Hq, Hk.
    apply in_dac_range_spec in Hin. rewrite Hin.
    unfold quantized. rewrite Hconv, Hrecv.
    destruct (str_eq_dec response (str_lit "OK")) as [Y|_];
      [now destruct Hbad|reflexivity]. }
  rewrite E. repeat split; reflexivity.
Qed.

(** A response that cannot be read at all (no terminator in the data, or
    bytes that are not UTF-8) ends the commit with the exception of
    [receive]; the set-points are not touched either. *)
Lemma commit_propagates_receive_error ch v (self : Spellman F)
      quotient dac_value k e c :
  float_truediv v (set_factor ch self) = Returns quotient ->
  math_floor quotient = Returns dac_value ->
  (0 <= dac_value < dac_resolution (properties self))%Z ->
  float_of_int dac_value = Returns k ->
  receive (having_sent [frame (set_command ch dac_value)] self)
  = (Raises e, c) ->
  commit ch v self = (Raises e, assign_connection c self).
Proof.
  intros Hq Hk Hin Hconv Hrecv.
  rewrite commit_cases, Hq, Hk.
  apply in_dac_range_spec in Hin. rewrite Hin.
  unfold quantized. rewrite Hconv, Hrecv. reflexivity.
Qed.

End Commit.
(** ** Queries and commands *)

Section Commands.

Context {F : Type} {arith : PyFloat F}.

(** A mnemonic sent and one response read: [disable], [IDN] and the
    second half of [enable]. *)
Lemma exchange_cases mnemonic (self : Spellman F) :
  is_ascii mnemonic = true ->
  (on_connection (send mnemonic) ;;;
   response <- on_connection receive ;; ret response) self
  = (fst (receive (having_sent [frame mnemonic] self)),
     assign_connection
       (snd (receive (having_sent [frame mnemonic] self))) self).
Proof.
  intros H. unfold bind. rewrite (on_connection_send _ self H).
  unfold on_connection, ret. cbn [connection assign_connection].
  destruct (receive _) as [[r|e] c]; reflexivity.
Qed.

(** [interlock] is such an exchange and nothing more: the text returned
    by [receive] holds no line feed, so it never equals ["open\n"] and the
    branch that zeroes the set-points is not taken. *)
Lemma interlock_cases (self : Spellman F) :
  interlock self
  = (fst (receive (having_sent [frame (str_lit ":ILOCK?")] self)),
     assign_connection
       (snd (receive (having_sent [frame (str_lit ":ILOCK?")] self))) self).
Proof.
  unfold interlock, bind.
  rewrite (on_connection_send (str_lit ":ILOCK?") self eq_refl).
  unfold on_connection, ret. cbn [connection assign_connection].
  destruct (receive _) as [[r|e] c] eqn:R; [|reflexivity].
  destruct (str_eq_dec r (str_lit "open" ++ [10%N])) as [Y|_];
    [|reflexivity].
  exfalso. apply (receive_no_LF _ _ _ R). subst r.
  apply in_or_app. right. now left.
Qed.

Lemma interlock_never_resets (self : Spellman F) :
  _voltage_setpoint (snd (interlock self)) = _voltage_setpoint self
  /\ _current_setpoint (snd (interlock self)) = _current_setpoint self
  /\ sent_log (snd (interlock self))
     = sent_log self ++ [frame (str_lit ":ILOCK?")].
Proof.
  rewrite interlock_cases. cbn [snd]. repeat split.
  rewrite sent_log_assign_connection. apply written_after_receive.
Qed.

(** [enable], commit by commit: a commit that raises ends it there, and
    after two commits that returned it is the exchange of [":ON"]. *)
Lemma enable_cases (self : Spellman F) :
  enable self =
  match set_voltage lit0 self with
  | (Raises e, s1) => (Raises e, s1)
  | (Returns _, s1) =>
    match set_current lit0 s1 with
    | (Raises e, s2) => (Raises e, s2)
    | (Returns _, s2) =>
      (fst (receive (having_sent [frame (str_lit ":ON")] s2)),
       assign_connection
         (snd (receive (having_sent [frame (str_lit ":ON")] s2))) s2)
    end
  end.
Proof.
  unfold enable. unfold bind at 1.
  destruct (set_voltage lit0 self) as [[[]|e] s1]; [|reflexivity].
  unfold bind at 1.
  destruct (set_current lit0 s1) as [[[]|e] s2]; [|reflexivity].
  apply (exchange_cases (str_lit ":ON") s2 eq_refl).
Qed.

(** [enable] with both commits acknowledged. *)
Lemma enable_run (self : Spellman F) qv qc z c1 c2 c3 response :
  float_truediv lit0 (_voltage_set_factor self) = Returns qv ->
  math_floor qv = Returns 0%Z ->
  float_truediv lit0 (_current_set_factor self) = Returns qc ->
  math_floor qc = Returns 0%Z ->
  (0 < dac_resolution (properties self))%Z ->
  float_of_int 0%Z = Returns z ->
  receive (having_sent [frame (str_lit ":V 0")] self)
  = (Returns (str_lit "OK"), c1) ->
  receive (link (written (interface c1) ++ [frame (str_lit ":C 0")])
                (incoming (interface c1)))
  = (Returns (str_lit "OK"), c2) ->
  receive (link (written (interface c2) ++ [frame (str_lit ":ON")])
                (incoming (interface c2)))
  = (Returns response, c3) ->
  enable self
  = (Returns response,
     assign_connection c3
       (assign_current_setpoint
          (float_mul (float_mul lit1 z) (_current_set_factor self))
          (assign_voltage_setpoint
             (float_mul (float_mul lit1 z) (_voltage_set_factor self))
             self)))
  /\ sent_log (snd (enable self))
     = sent_log self
       ++ [frame (str_lit ":V 0"); frame (str_lit ":C 0");
           frame (str_lit ":ON")].
Proof.
  intros Hqv Hkv Hqc Hkc Hres Hz R1 R2 R3.
  set (zero_v := float_mul (float_mul lit1 z) (_voltage_set_factor self)).
  set (zero_c := float_mul (float_mul lit1 z) (_current_set_factor self)).
  assert (Hin : (0 <= 0 < dac_resolution (properties self))%Z) by lia.
  pose proof (commit_acknowledged Voltage lit0 self qv 0 z c1
                Hqv Hkv Hin Hz R1) as E1.
  cbn [commit assign_setpoint set_factor] in E1. fold zero_v in E1.
  set (s1 := assign_voltage_setpoint zero_v (assign_connection c1 self))
    in E1.
  pose proof (commit_acknowledged Current lit0 s1 qc 0 z c2
                Hqc Hkc Hin Hz R2) as E2.
  cbn [commit assign_setpoint set_factor] in E2.
  change (_current_set_factor s1) with (_current_set_factor self) in E2.
  fold zero_c in E2.
  set (s2 := assign_current_setpoint zero_c (assign_connection c2 s1))
    in E2.
  assert (E : enable self
              = (Returns response,
                 assign_connection c3
                   (assign_current_setpoint zero_c
                      (assign_voltage_setpoint zero_v self)))).
  { rewrite enable_cases, E1, E2.
    change (having_sent [frame (str_lit ":ON")] s2)
      with (link (written (interface c2) ++ [frame (str_lit ":ON")])
                 (incoming (interface c2))).
    rewrite R3. reflexivity. }
  split; [exact E|].
  rewrite E. cbn [snd]. rewrite sent_log_assign_connection.
  pose proof (receive_written
                (link (written (interface c2) ++ [frame (str_lit ":ON")])
                      (incoming (interface c2)))) as W3.
  rewrite R3 in W3. cbn [snd] in W3. rewrite W3.
  cbn [link interface written].
  pose proof (receive_written
                (link (written (interface c1) ++ [frame (str_lit ":C 0")])
                      (incoming (interface c1)))) as W2.
  rewrite R2 in W2. cbn [snd] in W2. rewrite W2.
  cbn [link interface written].
  pose proof (written_after_receive [frame (str_lit ":V 0")] self) as W1.
  rewrite R1 in W1. cbn [snd] in W1. rewrite W1.
  rewrite <- !app_assoc. reflexivity.
Qed.


End Commands.

(** In binary64 the arithmetic of [enable] needs no more than set factors
    that are finite and not zero: a request for [0.0] then has code 0. *)
Lemma enable_on_binary64 (self : Spellman float) c1 c2 c3 response :
  Binary64.finite_nonzero (_voltage_set_factor self) = true ->
  Binary64.finite_nonzero (_current_set_factor self) = true ->
  (0 < dac_resolution (properties self))%Z ->
  receive (having_sent [frame (str_lit ":V 0")] self)
  = (Returns (str_lit "OK"), c1) ->
  receive (link (written (interface c1) ++ [frame (str_lit ":C 0")])
                (incoming (interface c1)))
  = (Returns (str_lit "OK"), c2) ->
  receive (link (written (interface c2) ++ [frame (str_lit ":ON")])
                (incoming (interface c2)))
  = (Returns response, c3) ->
  fst (enable self) = Returns response
  /\ sent_log (snd (enable self))
     = sent_log self
       ++ [frame (str_lit ":V 0"); frame (str_lit ":C 0");
           frame (str_lit ":ON")].
Proof.
  intros Fv Fc HN R1 R2 R3.
  destruct (zero_request _ Fv) as [Hqv Hkv].
  destruct (zero_request _ Fc) as [Hqc Hkc].
  destruct (enable_run self _ _ 0%float c1 c2 c3 response
              Hqv Hkv Hqc Hkc HN eq_refl R1 R2 R3) as [E L].
  split; [rewrite E; reflexivity|exact L].
Qed.
(** ** What the stored set-points can be *)

Section Reachable.

Context {F : Type} {arith : PyFloat F}.
Variable float_of_str : str -> outcome F.
Variable p : device_properties F.

Lemma committed_assign_connection c (self : Spellman F) :
  setpoints_committed p self ->
  setpoints_committed p (assign_connection c self).
Proof. intros H. exact H. Qed.







Lemma committed_init c (self : Spellman F) :
  init_device p (Some c) = Some self ->
  setpoints_committed p self /\ connection self = c.
Proof.
  unfold init_device.
  destruct (factor (voltage_range p) (dac_resolution p)) as [vs|] eqn:E1;
    [|discriminate].
  destruct (factor (voltage_range p) (adc_resolution p)) as [vg|];
    [|discriminate].
  destruct (factor (current_range p) (dac_resolution p)) as [cs|] eqn:E3;
    [|discriminate].
  destruct (factor (current_range p) (adc_resolution p)) as [cg|];
    [|discriminate].
  destruct (factor (filament_current_range p) (adc_resolution p)) as [fg|];
    [|discriminate].
  intros R. inversion R; subst self.
  repeat split; cbn; auto; now left.
Qed.


(** *** What is written to the socket *)

Lemma wire_frame_mnemonic N m :
  In m mnemonics -> wire_frame N (frame m).
Proof. intros H. left. now apply in_map. Qed.

Lemma wire_appended (self self' : Spellman F) extra :
  wire_in_range p self ->
  properties self' = properties self ->
  sent_log self' = sent_log self ++ extra ->
  Forall (wire_frame (dac_resolution p)) extra ->
  wire_in_range p self'.
Proof.
  intros [Hp Hw] Hp' Hs He. split; [congruence|].
  rewrite Hs. apply Forall_app. split; assumption.
Qed.

Lemma wire_exchanged mnemonic (self : Spellman F) :
  In mnemonic mnemonics ->
  wire_in_range p self ->
  wire_in_range p
    (assign_connection
       (snd (receive (having_sent [frame mnemonic] self))) self).
Proof.
  intros Hm H.
  apply (wire_appended self _ [frame mnemonic] H); [reflexivity| |].
  - rewrite sent_log_assign_connection. apply written_after_receive.
  - constructor; [now apply wire_frame_mnemonic|constructor].
Qed.

Lemma wire_commit ch v (self : Spellman F) :
  wire_in_range p self -> wire_in_range p (snd (commit ch v self)).
Proof.
  intros H. destruct (commit_sends ch v self) as [E|[k [Hk E]]].
  - apply (wire_appended self _ [] H).
    + apply commit_properties.
    + rewrite app_nil_r. exact E.
    + constructor.
  - apply (wire_appended self _ [frame (set_command ch k)] H).
    + apply commit_properties.
    + exact E.
    + constructor; [|constructor]. right. exists ch, k.
      destruct H as [Hp _]. rewrite <- Hp. split; [exact Hk|reflexivity].
Qed.

Lemma wire_logging_errors body (self : Spellman F) :
  wire_in_range p (snd (body self)) ->
  wire_in_range p (snd (logging_errors body self)).
Proof.
  unfold logging_errors.
  destruct (body self) as [[[]|e] s]; cbn [snd]; [auto|].
  destruct (has_message e); auto.
Qed.

Lemma wire_readback mnemonic f (self : Spellman F) :
  In mnemonic mnemonics ->
  is_ascii mnemonic = true ->
  wire_in_range p self ->
  wire_in_range p (snd (readback float_of_str mnemonic f self)).
Proof.
  intros Hm A H. pose proof (wire_exchanged mnemonic self Hm H) as W.
  unfold readback, bind.
  rewrite (on_connection_send _ self A).
  unfold on_connection, lift, get, ret. cbn [connection assign_connection].
  destruct (receive _) as [[r|e] c]; cbn [snd] in W |- *; [|exact W].
  destruct (float_of_str r); exact W.
Qed.

Lemma wire_enable (self : Spellman F) :
  wire_in_range p self -> wire_in_range p (snd (enable self)).
Proof.
  intros H. rewrite enable_cases.
  pose proof (wire_commit Voltage lit0 self H) as H1. cbn [commit] in H1.
  destruct (set_voltage lit0 self) as [[[]|e] s1]; cbn [snd] in H1 |- *;
    [|exact H1].
  pose proof (wire_commit Current lit0 s1 H1) as H2. cbn [commit] in H2.
  destruct (set_current lit0 s1) as [[[]|e] s2]; cbn [snd] in H2 |- *;
    [|exact H2].
  apply wire_exchanged; [|exact H2]. cbn. tauto.
Qed.

Lemma wire_serve r (self : Spellman F) :
  wire_in_range p self -> wire_in_range p (serve float_of_str r self).
Proof.
  intros H. destruct r; cbn [serve].
  - exact H.
  - apply wire_logging_errors, (wire_commit Voltage), H.
  - exact H.
  - apply wire_logging_errors, (wire_commit Current), H.
  - apply wire_readback; [cbn; tauto|reflexivity|exact H].
  - apply wire_readback; [cbn; tauto|reflexivity|exact H].
  - apply wire_readback; [cbn; tauto|reflexivity|exact H].
  - rewrite interlock_cases. apply wire_exchanged; [cbn; tauto|exact H].
  - now apply wire_enable.
  - unfold disable. rewrite (exchange_cases (str_lit ":OFF") self eq_refl).
    apply wire_exchanged; [cbn; tauto|exact H].
  - unfold IDN. rewrite (exchange_cases (str_lit "*IDN?") self eq_refl).
    apply wire_exchanged; [cbn; tauto|exact H].
Qed.

Lemma reachable_wire (self : Spellman F) :
  reachable float_of_str p self -> wire_in_range p self.
Proof.
  induction 1 as [arrivals self Hinit|r self _ IH].
  - destruct (committed_init _ self Hinit) as [[[Hp _] _] Hc].
    split; [exact Hp|]. unfold sent_log. rewrite Hc. constructor.
  - exact (wire_serve r self IH).
Qed.

(** C2. A requested value whose DAC code [floor(v/set_factor)] is
    negative or not below [dac_resolution] makes [set_voltage] raise
    [VoltageExceededError] and [set_current] raise [CurrentExceededError];
    the instance is left exactly as it was, so the stored set-point keeps
    its prior value and nothing is written to the socket.  Consequently
    whatever a commit writes is one set command whose code [k] satisfies
    [0 <= k < dac_resolution], and at every reachable instance every frame
    written so far is a plain mnemonic or a set command with such a code. *)
Theorem commit_rejects_out_of_range ch v (self : Spellman F) :
  (forall quotient dac_value,
      float_truediv v (set_factor ch self) = Returns quotient ->
      math_floor quotient = Returns dac_value ->
      (dac_value < 0 \/ dac_resolution (properties self) <= dac_value)%Z ->
      commit ch v self = (Raises (exceeded ch dac_value), self))
  /\ (sent_log (snd (commit ch v self)) = sent_log self
      \/ exists dac_value,
           (0 <= dac_value < dac_resolution (properties self))%Z /\
           sent_log (snd (commit ch v self))
           = sent_log self ++ [frame (set_command ch dac_value)])
  /\ (reachable float_of_str p self ->
      Forall (wire_frame (dac_resolution p)) (sent_log self)).
Proof.
  split; [|split; [apply commit_sends|]].
  - intros q k Hq Hk Hout.
    rewrite commit_cases, Hq, Hk.
    destruct (in_dac_range k self) eqn:R; [|reflexivity].
    apply in_dac_range_spec in R. lia.
  - intros H. exact (proj2 (reachable_wire self H)).
Qed.

End Reachable.


(** ** Arithmetic of the set-points *)

Section SetpointArithmetic.

Open Scope Q_scope.




End SetpointArithmetic.


(** ** The bench set-up at work *)

Lemma supply_is_init arrivals :
  init_device Bench.psu (Some (link [] arrivals))
  = Some (Bench.supply arrivals).
Proof. vm_compute. reflexivity. Qed.

Lemma negative_supply_is_init arrivals :
  init_device Bench.negative_psu (Some (link [] arrivals))
  = Some (Bench.negative_supply arrivals).
Proof. vm_compute. reflexivity. Qed.

Lemma exact_supply_is_init arrivals :
  init_device Bench.exact_psu (Some (link [] arrivals))
  = Some (Bench.exact_supply arrivals).
Proof. vm_compute. reflexivity. Qed.

(** C1, at the failing input.  The supply holds the committed set-points
    5.0 kV and 0.9765625 mA when the controller answers the interlock query
    with the line [open].  [interlock] returns ["open"], the text without
    its terminator, which is not the ["open\n"] the method compares with:
    both set-points stay as they were instead of becoming 0.0.  Only
    [":ILOCK?"] was written. *)
Theorem interlock_open_keeps_setpoints :
  let s0 := Bench.supply
              [Bench.line "OK"; Bench.line "OK"; Bench.line "open"] in
  let s1 := snd (set_voltage 5%float s0) in
  let s2 := snd (set_current 1%float s1) in
  (_voltage_setpoint s2 = 5%float /\ _current_setpoint s2 = 0.9765625%float)
  /\ inbox s2 = [Bench.line "open"]
  /\ fst (interlock s2) = Returns (str_lit "open")
  /\ _voltage_setpoint (snd (interlock s2)) = 5%float
  /\ _current_setpoint (snd (interlock s2)) = 0.9765625%float
  /\ sent_log (snd (interlock s2))
     = sent_log s2 ++ [frame (str_lit ":ILOCK?")].
Proof. vm_compute. repeat split; reflexivity. Qed.







(** With the negative set factor -0.1 the order of C6 is reversed whatever
    the rounding: a request for -1.05 kV has code 10 and stores -1.0. *)
Lemma negative_range_above_request :
  let s := Bench.negative_supply [Bench.line "OK"] in
  let v := (-0x1.0cccccccccccdp+0)%float in
  fst (set_voltage v s) = Returns tt
  /\ sent_log (snd (set_voltage v s)) = [frame (str_lit ":V 10")]
  /\ _voltage_setpoint (snd (set_voltage v s)) = (-1)%float
  /\ PrimFloat.ltb v (-1) = true.
Proof. vm_compute. repeat split; reflexivity. Qed.
(** ** The theorems at the bench set-up *)

(** A request for 10.1 mA on the 10 mA channel has code 258. *)
Lemma commit_rejects_out_of_range_witness :
  let v := (0x1.4333333333333p+3)%float in
  let s := Bench.supply [] in
  float_truediv v (set_factor Current s) = Returns (v / 0x1.4p-5)%float
  /\ math_floor (v / 0x1.4p-5)%float = Returns 258%Z
  /\ (258 < 0 \/ dac_resolution (properties s) <= 258)%Z
  /\ reachable Bench.rejecting Bench.psu s
  /\ commit Current v s = (Raises (CurrentExceededError 258), s)
  /\ Forall (wire_frame (dac_resolution Bench.psu)) (sent_log s).
Proof.
  cbv zeta.
  assert (Hq : float_truediv (0x1.4333333333333p+3)%float
                 (set_factor Current (Bench.supply []))
               = Returns (0x1.4333333333333p+3 / 0x1.4p-5)%float)
    by (vm_compute; reflexivity).
  assert (Hk : math_floor (0x1.4333333333333p+3 / 0x1.4p-5)%float
               = Returns 258%Z) by (vm_compute; reflexivity).
  assert (Hout : (258 < 0 \/
                  dac_resolution (properties (Bench.supply [])) <= 258)%Z)
    by (cbn; lia).
  assert (Hr : reachable Bench.rejecting Bench.psu (Bench.supply []))
    by (apply (reachable_init Bench.rejecting Bench.psu []);
        vm_compute; reflexivity).
  repeat (split; [assumption|]).
  destruct (commit_rejects_out_of_range Bench.rejecting Bench.psu Current
              (0x1.4333333333333p+3)%float (Bench.supply []))
    as (A & _ & B).
  split; [exact (A _ 258%Z Hq Hk Hout)|exact (B Hr)].
Defined.

(** A request for 5.05 kV, acknowledged: code 50, and 5.0 is stored. *)
Lemma commit_stores_quantized_witness :
  let s := Bench.supply [Bench.line "OK"] in
  let c := link [frame (str_lit ":V 50")] [] in
  (float_truediv Bench.v5_05 (set_factor Voltage s) = Returns Bench.q5_05
   /\ math_floor Bench.q5_05 = Returns 50%Z
   /\ (0 <= 50 < dac_resolution (properties s))%Z
   /\ float_of_int 50%Z = Returns 50%float
   /\ receive (having_sent [frame (set_command Voltage 50)] s)
      = (Returns (str_lit "OK"), c))
  /\ (commit Voltage Bench.v5_05 s
      = (Returns tt,
         assign_setpoint Voltage
           (float_mul (float_mul lit1 50%float) (set_factor Voltage s))
           (assign_connection c s))
      /\ setpoint Voltage (snd (commit Voltage Bench.v5_05 s))
         = float_mul (float_mul lit1 50%float) (set_factor Voltage s)
      /\ fst (read_setpoint Voltage (snd (commit Voltage Bench.v5_05 s)))
         = Returns (float_mul (float_mul lit1 50%float)
                      (set_factor Voltage s)))
  /\ float_mul (float_mul lit1 50%float) (set_factor Voltage s) = 5%float.
Proof.
  cbv zeta.
  assert (Hq : float_truediv Bench.v5_05
                 (set_factor Voltage (Bench.supply [Bench.line "OK"]))
               = Returns Bench.q5_05) by (vm_compute; reflexivity).
  assert (Hk : math_floor Bench.q5_05 = Returns 50%Z)
    by (vm_compute; reflexivity).
  assert (Hin : (0 <= 50 < dac_resolution
                             (properties (Bench.supply [Bench.line "OK"])))%Z)
    by (cbn; lia).
  assert (Hz : float_of_int 50%Z = Returns 50%float)
    by (vm_compute; reflexivity).
  assert (Hr : receive (having_sent [frame (set_command Voltage 50)]
                          (Bench.supply [Bench.line "OK"]))
               = (Returns (str_lit "OK"), link [frame (str_lit ":V 50")] []))
    by (vm_compute; reflexivity).
  split; [repeat (split; [assumption|]); assumption|].
  split; [|vm_compute; reflexivity].
  exact (commit_stores_quantized Voltage _ _ _ _ _ _ Hq Hk Hin Hz Hr).
Defined.

(** The same request answered with [FAIL]. *)
Lemma commit_rejects_bad_response_witness :
  let s := Bench.supply [Bench.line "FAIL"] in
  let c := link [frame (str_lit ":V 50")] [] in
  float_truediv 5%float (set_factor Voltage s) = Returns 50%float
  /\ math_floor 50%float = Returns 50%Z
  /\ (0 <= 50 < dac_resolution (properties s))%Z
  /\ float_of_int 50%Z = Returns 50%float
  /\ receive (having_sent [frame (set_command Voltage 50)] s)
     = (Returns (str_lit "FAIL"), c)
  /\ str_lit "FAIL" <> str_lit "OK"
  /\ commit Voltage 5%float s = (Raises ValueError, assign_connection c s)
  /\ _voltage_setpoint (snd (commit Voltage 5%float s)) = _voltage_setpoint s
  /\ _current_setpoint (snd (commit Voltage 5%float s)) = _current_setpoint s.
Proof.
  cbv zeta.
  assert (Hq : float_truediv 5%float
                 (set_factor Voltage (Bench.supply [Bench.line "FAIL"]))
               = Returns 50%float) by (vm_compute; reflexivity).
  assert (Hk : math_floor 50%float = Returns 50%Z)
    by (vm_compute; reflexivity).
  assert (Hin : (0 <= 50 < dac_resolution
                             (properties (Bench.supply [Bench.line "FAIL"])))%Z)
    by (cbn; lia).
  assert (Hz : float_of_int 50%Z = Returns 50%float)
    by (vm_compute; reflexivity).
  assert (Hr : receive (having_sent [frame (set_command Voltage 50)]
                          (Bench.supply [Bench.line "FAIL"]))
               = (Returns (str_lit "FAIL"), link [frame (str_lit ":V 50")] []))
    by (vm_compute; reflexivity).
  assert (Hbad : str_lit "FAIL" <> str_lit "OK")
    by (vm_compute; discriminate).
  repeat (split; [assumption|]).
  exact (commit_rejects_bad_response Voltage _ _ _ _ _ _ _
           Hq Hk Hin Hz Hr Hbad).
Defined.


(** The line [OK] followed in the same arrival by a stale [FAIL] line. *)
Lemma receive_discards_rest_witness :
  let line := list_byte_of_string "OK" in
  let rest := Bench.line "FAIL" in
  let later := [Bench.line "open"] in
  (~ In x0a line)
  /\ (List.length (line ++ x0a :: rest) <= 1024)%nat
  /\ receive (link [] ((line ++ x0a :: rest) :: later))
     = (decode line, link [] later)
  /\ (receive ;;; receive) (link [] ((line ++ x0a :: rest) :: later))
     = (Returns (str_lit "open"), link [] []).
Proof.
  cbv zeta.
  assert (Hl : ~ In x0a (list_byte_of_string "OK"))
    by (vm_compute; intros [H|[H|[]]]; discriminate).
  assert (Hn : (List.length (list_byte_of_string "OK"
                             ++ x0a :: Bench.line "FAIL") <= 1024)%nat)
    by (vm_compute; lia).
  destruct (receive_discards_rest [] _ (Bench.line "FAIL")
              [Bench.line "open"] Hl Hn) as (A & _ & B).
  repeat (split; [assumption|]).
  rewrite B. vm_compute. reflexivity.
Defined.






(** ** The codec, there and back *)

Section Utf8RoundTrip.

Open Scope N_scope.

Ltac split_tests :=
  repeat match goal with
         | |- context [in_range ?a ?b ?c] =>
           let E := fresh "E" in
           destruct (in_range a b c) eqn:E;
           [apply in_range_spec in E
           |unfold in_range in E; apply andb_false_iff in E;
            rewrite !N.leb_gt in E]
         | |- context [(?a =? ?b)%N] => destruct (N.eqb_spec a b)
         | |- context [(?a <? ?b)%N] => destruct (N.ltb_spec a b)
         end.

Lemma utf8_lead_two b :
  0xC2 <= b <= 0xDF -> utf8_lead b = Some (0x80, 0xBF, Trail1).
Proof. intros H. unfold utf8_lead. split_tests; try reflexivity; lia. Qed.

Lemma utf8_lead_three b :
  0xE0 <= b <= 0xEF ->
  utf8_lead b
  = Some (if b =? 0xE0 then 0xA0 else 0x80,
          if b =? 0xED then 0x9F else 0xBF, Trail2).
Proof. intros H. unfold utf8_lead. split_tests; try reflexivity; lia. Qed.

Lemma utf8_lead_four b :
  0xF0 <= b <= 0xF4 ->
  utf8_lead b
  = Some (if b =? 0xF0 then 0x90 else 0x80,
          if b =? 0xF4 then 0x8F else 0xBF, Trail3).
Proof. intros H. unfold utf8_lead. split_tests; try reflexivity; lia. Qed.

Ltac euclid := zify; Z.to_euclidean_division_equations; lia.

Lemma Some_eq {A} (a b : A) : Some a = Some b -> b = a.
Proof. congruence. Qed.

Lemma utf8_decode_cons b0 t0 :
  utf8_decode (b0 :: t0) =
  if b0 <? 0x80 then option_map (cons b0) (utf8_decode t0)
  else
    match utf8_lead b0, t0 with
    | Some (lo, hi, Trail1), b1 :: t1 =>
      if in_range lo hi b1
      then option_map (cons (cp2 b0 b1)) (utf8_decode t1)
      else None
    | Some (lo, hi, Trail2), b1 :: b2 :: t2 =>
      if in_range lo hi b1 && cont b2
      then option_map (cons (cp3 b0 b1 b2)) (utf8_decode t2)
      else None
    | Some (lo, hi, Trail3), b1 :: b2 :: b3 :: t3 =>
      if in_range lo hi b1 && cont b2 && cont b3
      then option_map (cons (cp4 b0 b1 b2 b3)) (utf8_decode t3)
      else None
    | _, _ => None
    end.
Proof. reflexivity. Qed.

Lemma in_range_true lo hi b : lo <= b -> b <= hi -> in_range lo hi b = true.
Proof. intros. apply in_range_spec. split; assumption. Qed.

(** Decoding what one code point encodes to gives the code point back. *)
Lemma utf8_decode_encode_cp c bs rest :
  utf8_encode_cp c = Some bs ->
  utf8_decode (bs ++ rest) = option_map (cons c) (utf8_decode rest).
Proof.
  unfold utf8_encode_cp.
  destruct (N.ltb_spec c 0x80) as [H1|H1].
  { intros R; apply Some_eq in R; subst bs. cbn [List.app]. rewrite utf8_decode_cons.
    apply N.ltb_lt in H1. rewrite H1. reflexivity. }
  destruct (N.ltb_spec c 0x800) as [H2|H2].
  { intros R; apply Some_eq in R; subst bs. cbn [List.app]. rewrite utf8_decode_cons.
    assert (L : (0xC0 + c / 64 <? 0x80) = false) by (apply N.ltb_ge; euclid).
    rewrite L, utf8_lead_two by euclid.
    rewrite in_range_true by euclid.
    replace (cp2 (0xC0 + c / 64) (0x80 + c mod 64)) with c
      by (unfold cp2; euclid).
    reflexivity. }
  destruct (N.ltb_spec c 0x10000) as [H3|H3].
  { destruct (in_range 0xD800 0xDFFF c) eqn:S; [discriminate|].
    unfold in_range in S. apply andb_false_iff in S. rewrite !N.leb_gt in S.
    intros R; apply Some_eq in R; subst bs. cbn [List.app]. rewrite utf8_decode_cons.
    assert (L : (0xE0 + c / 4096 <? 0x80) = false) by (apply N.ltb_ge; euclid).
    rewrite L, utf8_lead_three by euclid.
    assert (B1 : in_range (if 0xE0 + c / 4096 =? 0xE0 then 0xA0 else 0x80)
                          (if 0xE0 + c / 4096 =? 0xED then 0x9F else 0xBF)
                          (0x80 + (c / 64) mod 64) = true).
    { apply in_range_true.
      - destruct (N.eqb_spec (0xE0 + c / 4096) 0xE0); euclid.
      - destruct (N.eqb_spec (0xE0 + c / 4096) 0xED); euclid. }
    rewrite B1. unfold cont. rewrite in_range_true by euclid.
    cbn [andb].
    replace (cp3 (0xE0 + c / 4096) (0x80 + (c / 64) mod 64) (0x80 + c mod 64))
      with c by (unfold cp3; euclid).
    reflexivity. }
  destruct (N.ltb_spec c 0x110000) as [H4|H4]; [|discriminate].
  intros R; apply Some_eq in R; subst bs. cbn [List.app]. rewrite utf8_decode_cons.
  assert (L : (0xF0 + c / 262144 <? 0x80) = false) by (apply N.ltb_ge; euclid).
  rewrite L, utf8_lead_four by euclid.
  assert (B1 : in_range (if 0xF0 + c / 262144 =? 0xF0 then 0x90 else 0x80)
                        (if 0xF0 + c / 262144 =? 0xF4 then 0x8F else 0xBF)
                        (0x80 + (c / 4096) mod 64) = true).
  { apply in_range_true.
    - destruct (N.eqb_spec (0xF0 + c / 262144) 0xF0); euclid.
    - destruct (N.eqb_spec (0xF0 + c / 262144) 0xF4); euclid. }
  rewrite B1. unfold cont. rewrite !in_range_true by euclid.
  cbn [andb].
  replace (cp4 (0xF0 + c / 262144) (0x80 + (c / 4096) mod 64)
               (0x80 + (c / 64) mod 64) (0x80 + c mod 64))
    with c by (unfold cp4; euclid).
  reflexivity.
Qed.

Lemma utf8_decode_encode s : forall bs,
  utf8_encode s = Some bs -> utf8_decode bs = Some s.
Proof.
  induction s as [|c t IH]; intros bs; cbn [utf8_encode].
  - intros R; inversion R. reflexivity.
  - destruct (utf8_encode_cp c) as [b|] eqn:E; [|discriminate].
    destruct (utf8_encode t) as [r|] eqn:T; [|discriminate].
    intros R; apply Some_eq in R; subst bs.
    rewrite (utf8_decode_encode_cp c b r E), (IH r eq_refl). reflexivity.
Qed.

(** The bytes of an encoding are bytes, and none of them is a line feed
    unless the text holds one. *)
Lemma utf8_encode_cp_bytes c bs :
  utf8_encode_cp c = Some bs ->
  Forall (fun b => b < 256 /\ (b = 10 -> c = 10)) bs.
Proof.
  unfold utf8_encode_cp.
  destruct (N.ltb_spec c 0x80).
  { intros R; apply Some_eq in R; subst bs. repeat constructor; lia. }
  destruct (N.ltb_spec c 0x800).
  { intros R; apply Some_eq in R; subst bs. repeat constructor; euclid. }
  destruct (N.ltb_spec c 0x10000).
  { destruct (in_range 0xD800 0xDFFF c); [discriminate|].
    intros R; apply Some_eq in R; subst bs. repeat constructor; euclid. }
  destruct (N.ltb_spec c 0x110000); [|discriminate].
  intros R; apply Some_eq in R; subst bs. repeat constructor; euclid.
Qed.

Lemma utf8_encode_bytes s : forall bs,
  utf8_encode s = Some bs ->
  Forall (fun b => b < 256) bs /\ (In 10 bs -> In 10 s).
Proof.
  induction s as [|c t IH]; intros bs; cbn [utf8_encode].
  - intros R; inversion R. split; [constructor|intros []].
  - destruct (utf8_encode_cp c) as [b|] eqn:E; [|discriminate].
    destruct (utf8_encode t) as [r|] eqn:T; [|discriminate].
    intros R; apply Some_eq in R; subst bs.
    pose proof (utf8_encode_cp_bytes c b E) as Hb.
    destruct (IH r eq_refl) as [Hr Hin].
    split.
    + apply Forall_app. split; [|exact Hr].
      eapply Forall_impl; [|exact Hb]. cbn. tauto.
    + intros H. apply in_app_or in H. destruct H as [H|H].
      * left. rewrite Forall_forall in Hb. apply (Hb 10 H). reflexivity.
      * right. now apply Hin.
Qed.

End Utf8RoundTrip.

(** ** Frames on the wire *)

Lemma to_N_byte_of_N (b : N) : (b < 256)%N -> Byte.to_N (byte_of_N b) = b.
Proof.
  intros H. unfold byte_of_N.
  destruct (Byte.of_N b) as [y|] eqn:E.
  - now apply Byte.to_of_N.
  - apply Byte.of_N_None_iff in E. lia.
Qed.

Lemma map_to_N_byte_of_N (bs : list N) :
  Forall (fun b => (b < 256)%N) bs ->
  List.map Byte.to_N (List.map byte_of_N bs) = bs.
Proof.
  induction 1 as [|b t Hb _ IH]; cbn [List.map]; [reflexivity|].
  rewrite (to_N_byte_of_N b Hb), IH. reflexivity.
Qed.

Lemma In_LF_byte_of_N (bs : list N) :
  Forall (fun b => (b < 256)%N) bs ->
  In x0a (List.map byte_of_N bs) -> In 10%N bs.
Proof.
  intros Hb Hin. apply in_map_iff in Hin. destruct Hin as [b [E Hin]].
  rewrite Forall_forall in Hb. pose proof (to_N_byte_of_N b (Hb b Hin)) as T.
  rewrite E in T. cbn in T. now subst b.
Qed.

Lemma utf8_encode_app s t bs :
  utf8_encode (s ++ t) = Some bs ->
  exists b1 b2,
    utf8_encode s = Some b1 /\ utf8_encode t = Some b2 /\ bs = (b1 ++ b2)%list.
Proof.
  revert bs. induction s as [|c s IH]; intros bs; cbn [List.app utf8_encode].
  - intros H. exists [], bs. repeat split; assumption.
  - destruct (utf8_encode_cp c) as [b|]; [|discriminate].
    destruct (utf8_encode (s ++ t)) as [r|] eqn:E; [|discriminate].
    intros R. apply Some_eq in R. subst bs.
    destruct (IH r eq_refl) as (b1 & b2 & E1 & E2 & ->).
    rewrite E1. exists (b ++ b1)%list, b2.
    repeat split; [assumption|]. now rewrite app_assoc.
Qed.

(** What [send] hands to the socket for a text without line feed: the
    encoding of the text, free of line-feed bytes, and one line feed. *)
Lemma encode_line mnemonic data :
  encode (mnemonic ++ LF) = Returns data ->
  ~ In 10%N mnemonic ->
  exists body,
    data = (body ++ [x0a])%list
    /\ ~ In x0a body
    /\ decode body = Returns mnemonic.
Proof.
  unfold encode.
  destruct (utf8_encode (mnemonic ++ LF)) as [bs|] eqn:E; [|discriminate].
  intros R Hno. injection R as <-.
  destruct (utf8_encode_app _ _ _ E) as (b1 & b2 & E1 & E2 & ->).
  cbn in E2. injection E2 as <-.
  destruct (utf8_encode_bytes _ _ E1) as [Hb Hin].
  exists (List.map byte_of_N b1). split; [|split].
  - rewrite map_app. reflexivity.
  - intros H. apply Hno, Hin. now apply In_LF_byte_of_N.
  - unfold decode. rewrite (map_to_N_byte_of_N _ Hb).
    rewrite (utf8_decode_encode _ _ E1). reflexivity.
Qed.

(** X1.  What [send] writes, [receive] reads back.  For a text without
    line feed that [send] accepts, [send] writes exactly one frame and
    leaves the arrivals alone; when that frame, of at most 1024 bytes,
    arrives in one piece, [receive] returns the text that was sent. *)
Theorem send_receive_round_trip mnemonic c data w later :
  encode (mnemonic ++ LF) = Returns data ->
  ~ In 10%N mnemonic ->
  (List.length data <= 1024)%nat ->
  send mnemonic c
  = (Returns tt,
     link (written (interface c) ++ [data]) (incoming (interface c)))
  /\ receive (link w (data :: later)) = (Returns mnemonic, link w later).
Proof.
  intros E Hno Hlen. split.
  - unfold send, bind, lift. cbn [List.concat List.app].
    rewrite app_nil_r, E. reflexivity.
  - destruct (encode_line _ _ E Hno) as (body & -> & Hb & D).
    pose proof (receive_line w body [] later Hb Hlen) as R.
    rewrite D in R. exact R.
Qed.

(** [send] of a text that does not encode (a lone surrogate) raises and
    writes nothing. *)
Lemma send_unencodable mnemonic c :
  encode (mnemonic ++ LF) = Raises UnicodeEncodeError ->
  send mnemonic c = (Raises UnicodeEncodeError, c).
Proof.
  intros E. unfold send, bind, lift. cbn [List.concat List.app].
  rewrite app_nil_r, E. reflexivity.
Qed.

Lemma send_receive_round_trip_witness :
  let m := (str_lit ":V? " ++ [233%N; 8364%N])%list in
  let data := List.map byte_of_N
                (List.map Byte.to_N (list_byte_of_string ":V? ")
                 ++ [0xC3; 0xA9; 0xE2; 0x82; 0xAC; 10])%N in
  encode (m ++ LF) = Returns data
  /\ (List.length data <= 1024)%nat
  /\ send m (link [] []) = (Returns tt, link [data] [])
  /\ receive (link [] [data]) = (Returns m, link [] []).
Proof.
  cbv zeta.
  set (m := (str_lit ":V? " ++ [233%N; 8364%N])%list).
  set (data := List.map byte_of_N
                (List.map Byte.to_N (list_byte_of_string ":V? ")
                 ++ [0xC3; 0xA9; 0xE2; 0x82; 0xAC; 10])%N).
  assert (E : encode (m ++ LF) = Returns data) by (vm_compute; reflexivity).
  assert (Hno : ~ In 10%N m).
  { vm_compute. intuition discriminate. }
  assert (Hlen : (List.length data <= 1024)%nat) by (vm_compute; lia).
  split; [exact E|split; [exact Hlen|]].
  exact (send_receive_round_trip m (link [] []) data [] [] E Hno Hlen).
Defined.

(** X16.  [receive] does not put a response together from two arrivals.
    When an arrival holds no terminator, [receive] raises and the bytes of
    that arrival are gone; the next [receive] starts at the next arrival
    and returns its first line alone. *)
Theorem receive_does_not_reassemble w part line rest later :
  ~ In x0a part ->
  (List.length part <= 1024)%nat ->
  ~ In x0a line ->
  (List.length (line ++ x0a :: rest) <= 1024)%nat ->
  receive (link w (part :: (line ++ x0a :: rest) :: later))
  = (Raises (NameError "SocketError"),
     link w ((line ++ x0a :: rest) :: later))
  /\ snd ((receive ;;; receive)
            (link w (part :: (line ++ x0a :: rest) :: later)))
     = link w ((line ++ x0a :: rest) :: later)
  /\ receive (snd (receive
                     (link w (part :: (line ++ x0a :: rest) :: later))))
     = (decode line, link w later).
Proof.
  intros Hp Lp Hl Ll.
  assert (E : receive (link w (part :: (line ++ x0a :: rest) :: later))
              = (Raises (NameError "SocketError"),
                 link w ((line ++ x0a :: rest) :: later))).
  { rewrite receive_unfold. unfold link, socket_recv.
    cbn [interface incoming written].
    rewrite (firstn_all2 _ Lp), (skipn_all2 _ Lp). cbn [fst snd].
    apply contains_not_In in Hp. rewrite Hp. reflexivity. }
  split; [exact E|split].
  - unfold bind. rewrite E. reflexivity.
  - rewrite E. cbn [snd]. apply receive_line; assumption.
Qed.

Lemma receive_does_not_reassemble_witness :
  let part := list_byte_of_string "O" in
  let line := list_byte_of_string "K" in
  (~ In x0a part /\ (List.length part <= 1024)%nat
   /\ ~ In x0a line /\ (List.length (line ++ x0a :: []) <= 1024)%nat)
  /\ receive (link [] [part; (line ++ [x0a])%list])
     = (Raises (NameError "SocketError"), link [] [(line ++ [x0a])%list])
  /\ receive (link [] [(line ++ [x0a])%list])
     = (Returns (str_lit "K"), link [] []).
Proof.
  cbv zeta.
  assert (Hp : ~ In x0a (list_byte_of_string "O"))
    by (vm_compute; intuition discriminate).
  assert (Lp : (List.length (list_byte_of_string "O") <= 1024)%nat)
    by (vm_compute; lia).
  assert (Hl : ~ In x0a (list_byte_of_string "K"))
    by (vm_compute; intuition discriminate).
  assert (Ll : (List.length (list_byte_of_string "K" ++ x0a :: []) <= 1024)%nat)
    by (vm_compute; lia).
  split; [repeat (split; [assumption|]); assumption|].
  destruct (receive_does_not_reassemble [] _ _ [] [] Hp Lp Hl Ll)
    as (A & _ & B).
  split; [exact A|]. rewrite A in B. exact B.
Defined.

(** ** Set commands *)

Lemma digits_inj d : forall d', digits d = digits d' -> d = d'.
Proof.
  induction d; intros d'; destruct d'; cbn [digits]; intros H;
    try discriminate; try reflexivity;
    injection H as H; f_equal; now apply IHd.
Qed.

Lemma digits_are_digits d : Forall (fun c => (48 <= c <= 57)%N) (digits d).
Proof. induction d; cbn [digits]; constructor; auto; lia. Qed.

Lemma format_d_inj k k' : format_d k = format_d k' -> k = k'.
Proof.
  unfold format_d. intros H. apply DecimalZ.to_int_inj.
  destruct (Z.to_int k) as [d|d], (Z.to_int k') as [d'|d'].
  - f_equal. now apply digits_inj.
  - exfalso. pose proof (digits_are_digits d) as D. rewrite H in D.
    inversion D; lia.
  - exfalso. pose proof (digits_are_digits d') as D. rewrite <- H in D.
    inversion D; lia.
  - injection H as H. f_equal. now apply digits_inj.
Qed.

Lemma format_d_no_LF k : ~ In 10%N (format_d k).
Proof.
  unfold format_d. intros H.
  assert (D : forall d, ~ In 10%N (digits d)).
  { intros d Hd. pose proof (digits_are_digits d) as F.
    rewrite Forall_forall in F. specialize (F _ Hd). lia. }
  destruct (Z.to_int k) as [d|d].
  - exact (D d H).
  - destruct H as [H|H]; [discriminate|exact (D d H)].
Qed.

Lemma is_ascii_bytes s : is_ascii s = true -> Forall (fun b => (b < 256)%N) s.
Proof.
  unfold is_ascii. rewrite forallb_forall, Forall_forall.
  intros H b Hb. specialize (H b Hb). apply N.ltb_lt in H. lia.
Qed.

Lemma frame_inj m m' :
  is_ascii m = true -> is_ascii m' = true -> frame m = frame m' -> m = m'.
Proof.
  intros A A' H. unfold frame in H.
  apply (f_equal (List.map Byte.to_N)) in H.
  rewrite !map_to_N_byte_of_N in H.
  - now apply app_inv_tail in H.
  - apply is_ascii_bytes. rewrite is_ascii_app, A'. reflexivity.
  - apply is_ascii_bytes. rewrite is_ascii_app, A. reflexivity.
Qed.

Lemma set_command_prefix ch k :
  set_command ch k
  = match ch with
    | Voltage => 58%N :: 86%N :: 32%N :: format_d k
    | Current => 58%N :: 67%N :: 32%N :: format_d k
    end.
Proof. destruct ch; reflexivity. Qed.

(** X3.  A set command names its channel and its code: two set commands
    with the same frame have the same channel and the same DAC code, and
    no set command has the frame of a plain mnemonic. *)
Theorem set_command_determines ch k ch' k' :
  (frame (set_command ch k) = frame (set_command ch' k') ->
   ch = ch' /\ k = k')
  /\ ~ In (frame (set_command ch k)) (List.map frame mnemonics).
Proof.
  split.
  - intros H.
    apply frame_inj in H; try apply is_ascii_set_command.
    rewrite !set_command_prefix in H.
    destruct ch, ch'; try discriminate; injection H as H;
      (split; [reflexivity|now apply format_d_inj]).
  - intros H. apply in_map_iff in H. destruct H as [m [E Hm]].
    assert (A : is_ascii m = true).
    { cbn in Hm. intuition (subst m; reflexivity). }
    apply frame_inj in E; [|exact A|apply is_ascii_set_command].
    rewrite set_command_prefix in E.
    cbn in Hm.
    destruct Hm as [<-|[<-|[<-|[<-|[<-|[<-|[<-|[]]]]]]]];
      destruct ch; discriminate.
Qed.

(** ** One line per frame *)

Lemma one_line_frame m :
  is_ascii m = true -> m <> [] -> ~ In 10%N m -> one_line (frame m).
Proof.
  intros A Hn Hno. exists (List.map byte_of_N m). split; [|split].
  - unfold frame. now rewrite map_app.
  - destruct m; [now elim Hn|discriminate].
  - intros H. apply Hno. apply In_LF_byte_of_N; [|exact H].
    now apply is_ascii_bytes.
Qed.

Lemma one_line_wire_frame N f : wire_frame N f -> one_line f.
Proof.
  intros [H|(ch & k & _ & ->)].
  - apply in_map_iff in H. destruct H as [m [<- Hm]].
    cbn in Hm.
    destruct Hm as [<-|[<-|[<-|[<-|[<-|[<-|[<-|[]]]]]]]];
      (apply one_line_frame;
       [reflexivity|discriminate|vm_compute; intuition discriminate]).
  - apply one_line_frame.
    + apply is_ascii_set_command.
    + rewrite set_command_prefix. destruct ch; discriminate.
    + rewrite set_command_prefix. intros H.
      destruct ch; destruct H as [H|[H|[H|H]]]; try discriminate;
        exact (format_d_no_LF k H).
Qed.

(** X2.  Every frame the device has written, at any reachable instance,
    is one protocol line: a body that is not empty and holds no line
    feed, ended by one line feed. *)
Theorem writes_whole_lines {F : Type} {arith : PyFloat F}
        (float_of_str : str -> outcome F) (p : device_properties F)
        (self : Spellman F) :
  reachable float_of_str p self -> Forall one_line (sent_log self).
Proof.
  intros H. destruct (reachable_wire float_of_str p self H) as [_ W].
  eapply Forall_impl; [|exact W]. intros f. apply one_line_wire_frame.
Qed.

Lemma writes_whole_lines_witness :
  let s := serve Bench.rejecting Enable
             (Bench.supply [Bench.line "OK"; Bench.line "OK"; Bench.line "OK"]) in
  reachable Bench.rejecting Bench.psu s
  /\ sent_log s = [frame (str_lit ":V 0"); frame (str_lit ":C 0");
                   frame (str_lit ":ON")]
  /\ Forall one_line (sent_log s).
Proof.
  cbv zeta.
  set (s := serve Bench.rejecting Enable
              (Bench.supply [Bench.line "OK"; Bench.line "OK";
                             Bench.line "OK"])).
  assert (Hr : reachable Bench.rejecting Bench.psu s).
  { apply reachable_serve.
    apply (reachable_init Bench.rejecting Bench.psu
             [Bench.line "OK"; Bench.line "OK"; Bench.line "OK"]).
    vm_compute. reflexivity. }
  split; [exact Hr|split; [vm_compute; reflexivity|]].
  exact (writes_whole_lines Bench.rejecting Bench.psu s Hr).
Defined.

(** ** The exceptions of [receive] *)

Lemma decode_raises data e :
  decode data = Raises e -> e = UnicodeDecodeError.
Proof.
  unfold decode. destruct (utf8_decode _); intros H; inversion H; reflexivity.
Qed.

Lemma receive_raises c e c' :
  receive c = (Raises e, c') -> has_message e = false.
Proof.
  rewrite receive_unfold. cbv zeta.
  destruct (contains _ _).
  - destruct (split _ _) as [|response rest].
    + intros H; inversion H; reflexivity.
    + destruct (decode response) eqn:D; intros H; inversion H; subst.
      apply decode_raises in D. now subst.
  - intros H; inversion H; reflexivity.
Qed.

(** ** What an operation leaves alone *)

Section Untouched.

Context {F : Type} {arith : PyFloat F}.

Lemma same_configuration_refl (self : Spellman F) :
  same_configuration self self.
Proof. repeat split. Qed.

Lemma same_but_connection_refl (self : Spellman F) :
  same_but_connection self self.
Proof. repeat split. Qed.

Lemma same_but_connection_trans (a b c : Spellman F) :
  same_but_connection a b -> same_but_connection b c ->
  same_but_connection a c.
Proof.
  unfold same_but_connection, same_configuration.
  intros (H1 & H2 & H3) (K1 & K2 & K3).
  repeat split; try congruence; intuition congruence.
Qed.

Lemma same_but_connection_assign c (self : Spellman F) :
  same_but_connection self (assign_connection c self).
Proof. repeat split. Qed.

Lemma setpoint_other_assign ch sp (self : Spellman F) :
  setpoint (other ch) (assign_setpoint ch sp self) = setpoint (other ch) self.
Proof. destruct ch; reflexivity. Qed.

Lemma same_configuration_assign ch sp c (self : Spellman F) :
  same_configuration self (assign_setpoint ch sp (assign_connection c self)).
Proof. destruct ch; repeat split. Qed.

(** The two ways a commit ends: it returned, and the instance is the old
    one with a new connection and a new set-point of its channel; or it
    raised, and only the connection may have changed. *)
Lemma commit_ends ch v (self : Spellman F) :
  (exists sp c, commit ch v self
                = (Returns tt, assign_setpoint ch sp (assign_connection c self)))
  \/ (exists e, commit ch v self = (Raises e, self))
  \/ (exists e c, commit ch v self = (Raises e, assign_connection c self)).
Proof.
  rewrite commit_cases.
  destruct (float_truediv _ _) as [q|e]; [|right; left; eauto].
  destruct (math_floor q) as [k|e]; [|right; left; eauto].
  destruct (in_dac_range k self); [|right; left; eauto].
  destruct (quantized k _) as [sp|e]; [|right; left; eauto].
  destruct (receive _) as [[r|e] c]; [|right; right; eauto].
  destruct (str_eq_dec r (str_lit "OK")); [left|right; right]; eauto.
Qed.

(** X4.  A commit touches one set-point at most: the properties, the
    five factors and the set-point of the other channel come out as they
    went in, and when the commit raises, whatever the exception, the
    set-point of its own channel is unchanged as well. *)
Theorem commit_touches_one_setpoint ch v (self : Spellman F) :
  same_configuration self (snd (commit ch v self))
  /\ setpoint (other ch) (snd (commit ch v self)) = setpoint (other ch) self
  /\ (forall e, fst (commit ch v self) = Raises e ->
      setpoint ch (snd (commit ch v self)) = setpoint ch self).
Proof.
  destruct (commit_ends ch v self)
    as [(sp & c & E)|[(e' & E)|(e' & c & E)]]; rewrite E; cbn [fst snd].
  - split; [apply same_configuration_assign|].
    split; [destruct ch; reflexivity|discriminate].
  - split; [apply same_configuration_refl|]. split; reflexivity.
  - split; [repeat split|]. split; [destruct ch; reflexivity|].
    intros ? _. destruct ch; reflexivity.
Qed.

(** *** The attribute writes *)

Lemma setpoint_write_cases ch v (self : Spellman F) :
  setpoint_write ch v self
  = match commit ch v self with
    | (Returns tt, self') => (Returns tt, self')
    | (Raises ex, self') =>
      if has_message ex then (Returns tt, self')
      else (Raises (AttributeError "message"), self')
    end.
Proof. destruct ch; reflexivity. Qed.

(** X5.  The write side of a set-point attribute ends in one of two
    ways only: it returns, or it raises [AttributeError] for the missing
    attribute [message].  No exception of the commit reaches the client
    as it was raised, and the instance is left as the commit left it. *)
Theorem setpoint_write_outcomes ch v (self : Spellman F) :
  snd (setpoint_write ch v self) = snd (commit ch v self)
  /\ (fst (setpoint_write ch v self) = Returns tt
      \/ fst (setpoint_write ch v self) = Raises (AttributeError "message"))
  /\ (fst (setpoint_write ch v self) = Returns tt
      <-> fst (commit ch v self) = Returns tt
          \/ exists e, fst (commit ch v self) = Raises e
                       /\ has_message e = true).
Proof.
  rewrite setpoint_write_cases.
  destruct (commit ch v self) as [[[]|e] s]; cbn [fst snd].
  - split; [reflexivity|]. split; [now left|]. split; auto.
  - destruct (has_message e) eqn:M; cbn [fst snd];
      (split; [reflexivity|split; [auto|]]).
    + split; [intros _; right; now exists e|reflexivity].
    + split; [discriminate|].
      intros [H|(e' & H & M')]; [discriminate|].
      injection H as <-. congruence.
Qed.

(** X6.  What the client of a set-point write is told.  A value whose DAC
    code is out of range is logged and the write returns as if it had
    worked, the instance unchanged and nothing written.  A response other
    than ["OK"], and a failure of [receive], reach the client as the
    [AttributeError] of the handler, with the set command written and
    both set-points unchanged. *)
Theorem setpoint_write_masks_errors ch v (self : Spellman F)
        quotient dac_value :
  float_truediv v (set_factor ch self) = Returns quotient ->
  math_floor quotient = Returns dac_value ->
  (in_dac_range dac_value self = false ->
   setpoint_write ch v self = (Returns tt, self))
  /\ (forall k c outcome,
        in_dac_range dac_value self = true ->
        float_of_int dac_value = Returns k ->
        receive (having_sent [frame (set_command ch dac_value)] self)
        = (outcome, c) ->
        outcome <> Returns (str_lit "OK") ->
        setpoint_write ch v self
        = (Raises (AttributeError "message"), assign_connection c self)).
Proof.
  intros Hq Hf. rewrite setpoint_write_cases, commit_cases, Hq, Hf. split.
  - intros ->. destruct ch; reflexivity.
  - intros k c o -> Hk Hr Ho. unfold quantized. rewrite Hk, Hr.
    destruct o as [r|e].
    + destruct (str_eq_dec r (str_lit "OK")) as [->|_]; [now elim Ho|].
      reflexivity.
    + pose proof (receive_raises _ _ _ Hr) as M. now rewrite M.
Qed.

End Untouched.

Lemma setpoint_write_masks_errors_witness :
  let s := Bench.supply [Bench.line "FAIL"] in
  let c := link [frame (str_lit ":V 50")] [] in
  (float_truediv 30%float (set_factor Voltage s) = Returns 300%float
   /\ math_floor 300%float = Returns 300%Z
   /\ in_dac_range 300 s = false
   /\ setpoint_write Voltage 30%float s = (Returns tt, s))
  /\ (float_truediv 5%float (set_factor Voltage s) = Returns 50%float
      /\ math_floor 50%float = Returns 50%Z
      /\ in_dac_range 50 s = true
      /\ float_of_int 50%Z = Returns 50%float
      /\ receive (having_sent [frame (set_command Voltage 50)] s)
         = (Returns (str_lit "FAIL"), c)
      /\ Returns (str_lit "FAIL") <> Returns (str_lit "OK")
      /\ setpoint_write Voltage 5%float s
         = (Raises (AttributeError "message"), assign_connection c s)).
Proof.
  cbv zeta.
  assert (Hq : float_truediv 30%float
                 (set_factor Voltage (Bench.supply [Bench.line "FAIL"]))
               = Returns 300%float) by (vm_compute; reflexivity).
  assert (Hk : math_floor 300%float = Returns 300%Z)
    by (vm_compute; reflexivity).
  assert (Hout : in_dac_range 300 (Bench.supply [Bench.line "FAIL"]) = false)
    by (vm_compute; reflexivity).
  assert (Hq' : float_truediv 5%float
                  (set_factor Voltage (Bench.supply [Bench.line "FAIL"]))
                = Returns 50%float) by (vm_compute; reflexivity).
  assert (Hk' : math_floor 50%float = Returns 50%Z)
    by (vm_compute; reflexivity).
  assert (Hin : in_dac_range 50 (Bench.supply [Bench.line "FAIL"]) = true)
    by (vm_compute; reflexivity).
  assert (Hz : float_of_int 50%Z = Returns 50%float)
    by (vm_compute; reflexivity).
  assert (Hr : receive (having_sent [frame (set_command Voltage 50)]
                          (Bench.supply [Bench.line "FAIL"]))
               = (Returns (str_lit "FAIL"), link [frame (str_lit ":V 50")] []))
    by (vm_compute; reflexivity).
  assert (Hbad : Returns (str_lit "FAIL") <> Returns (str_lit "OK"))
    by (vm_compute; discriminate).
  split.
  - repeat (split; [assumption|]).
    exact (proj1 (setpoint_write_masks_errors Voltage _ _ _ _ Hq Hk) Hout).
  - repeat (split; [assumption|]).
    exact (proj2 (setpoint_write_masks_errors Voltage _ _ _ _ Hq' Hk')
             _ _ _ Hin Hz Hr Hbad).
Defined.

(** ** Requests *)

Section Requests.

Context {F : Type} {arith : PyFloat F}.
Variable float_of_str : str -> outcome F.

Lemma readback_state command f (self : Spellman F) :
  is_ascii command = true ->
  snd (readback float_of_str command f self)
  = assign_connection
      (snd (receive (having_sent [frame command] self))) self.
Proof.
  intros A. unfold readback, bind.
  rewrite (on_connection_send _ self A).
  unfold on_connection, lift, get, ret. cbn [connection assign_connection].
  destruct (receive _) as [[r|e] c]; cbn [snd]; [|reflexivity].
  destruct (float_of_str r); reflexivity.
Qed.

(** A request that commits nothing leaves the instance it found, with
    the connection after one exchange when it has a query. *)
Lemma query_state r (self : Spellman F) :
  commits_nothing r = true ->
  serve float_of_str r self
  = match query r with
    | [] => self
    | m :: _ =>
      assign_connection (snd (receive (having_sent [frame m] self))) self
    end.
Proof.
  destruct r; cbn [commits_nothing serve query]; intros H;
    try discriminate; try reflexivity.
  - now apply readback_state.
  - now apply readback_state.
  - now apply readback_state.
  - now rewrite interlock_cases.
  - unfold disable. now rewrite (exchange_cases (str_lit ":OFF") self eq_refl).
  - unfold IDN. now rewrite (exchange_cases (str_lit "*IDN?") self eq_refl).
Qed.

(** X7.  A request that is neither a set-point write nor [enable] (an
    attribute read, [interlock], [disable], [IDN]) changes nothing of the
    instance but its connection, whatever the controller answers and
    whether or not [float] accepts the answer; it writes the one frame of
    its query, and a set-point read writes nothing. *)
Theorem query_keeps_instance r (self : Spellman F) :
  commits_nothing r = true ->
  same_but_connection self (serve float_of_str r self)
  /\ sent_log (serve float_of_str r self)
     = sent_log self ++ List.map frame (query r).
Proof.
  intros H. rewrite (query_state r self H).
  destruct r; try discriminate H; cbn [query List.map];
    try (split; [apply same_but_connection_refl
                |now rewrite app_nil_r]);
    (split; [apply same_but_connection_assign|];
     rewrite sent_log_assign_connection; apply written_after_receive).
Qed.

(** *** After the controller has closed the connection *)

Lemma receive_closed w :
  receive (link w [])
  = (Raises (NameError "SocketError"), link w []).
Proof. reflexivity. Qed.

Lemma having_sent_closed frames (self : Spellman F) :
  inbox self = [] ->
  receive (having_sent frames self)
  = (Raises (NameError "SocketError"), link (sent_log self ++ frames) []).
Proof. unfold having_sent. intros ->. apply receive_closed. Qed.

Lemma commit_closed ch v (self : Spellman F) :
  inbox self = [] ->
  same_but_connection self (snd (commit ch v self))
  /\ inbox (snd (commit ch v self)) = []
  /\ exists e, fst (commit ch v self) = Raises e.
Proof.
  intros H. rewrite commit_cases.
  destruct (float_truediv _ _) as [q|e];
    [|cbn [fst snd]; split; [apply same_but_connection_refl|eauto]].
  destruct (math_floor q) as [k|e];
    [|cbn [fst snd]; split; [apply same_but_connection_refl|eauto]].
  destruct (in_dac_range k self);
    [|cbn [fst snd]; split; [apply same_but_connection_refl|eauto]].
  destruct (quantized k _) as [sp|e];
    [|cbn [fst snd]; split; [apply same_but_connection_refl|eauto]].
  rewrite (having_sent_closed _ self H). cbn [fst snd].
  split; [apply same_but_connection_assign|]. split; [reflexivity|eauto].
Qed.

Lemma snd_setpoint_write ch v (self : Spellman F) :
  snd (setpoint_write ch v self) = snd (commit ch v self).
Proof.
  rewrite setpoint_write_cases.
  destruct (commit ch v self) as [[[]|e] s]; [reflexivity|].
  destruct (has_message e); reflexivity.
Qed.

Lemma serve_closed r (self : Spellman F) :
  inbox self = [] ->
  same_but_connection self (serve float_of_str r self)
  /\ inbox (serve float_of_str r self) = [].
Proof.
  intros H.
  destruct (commits_nothing r) eqn:Q.
  - rewrite (query_state r self Q).
    destruct (query r) as [|m ms];
      [split; [apply same_but_connection_refl|exact H]|].
    rewrite (having_sent_closed _ self H). cbn [snd].
    split; [apply same_but_connection_assign|reflexivity].
  - destruct r; try discriminate Q; cbn [serve].
    + change (voltage_setpoint_write value)
        with (setpoint_write Voltage value).
      rewrite snd_setpoint_write.
      destruct (commit_closed Voltage value self H) as (A & B & _). now split.
    + change (current_setpoint_write value)
        with (setpoint_write Current value).
      rewrite snd_setpoint_write.
      destruct (commit_closed Current value self H) as (A & B & _). now split.
    + rewrite enable_cases.
      destruct (commit_closed Voltage lit0 self H) as (A & B & e & E).
      cbn [commit] in A, B, E.
      destruct (set_voltage lit0 self) as [[[]|e'] s1]; cbn [fst snd] in *;
        [discriminate|now split].
Qed.

(** X8.  Once the stream has ended ([recv] returns [b'']), no sequence of
    requests changes a set-point, a factor or a property any more: every
    commit raises before it stores anything, and the stream stays ended. *)
Theorem closed_stream_freezes rs : forall self : Spellman F,
  inbox self = [] ->
  same_but_connection self (serve_all float_of_str rs self)
  /\ inbox (serve_all float_of_str rs self) = []
  /\ forall ch v, exists e,
       fst (commit ch v (serve_all float_of_str rs self)) = Raises e.
Proof.
  induction rs as [|r rs IH]; intros self H.
  - cbn. split; [apply same_but_connection_refl|]. split; [exact H|].
    intros ch v. exact (proj2 (proj2 (commit_closed ch v self H))).
  - destruct (serve_closed r self H) as [A B].
    destruct (IH _ B) as (A' & B' & C').
    change (serve_all float_of_str (r :: rs) self)
      with (serve_all float_of_str rs (serve float_of_str r self)).
    split; [exact (same_but_connection_trans _ _ _ A A')|].
    split; assumption.
Qed.

(** *** A DAC range without codes *)

Lemma in_empty_dac_range k (self : Spellman F) :
  (dac_resolution (properties self) <= 0)%Z -> in_dac_range k self = false.
Proof.
  intros H. destruct (in_dac_range k self) eqn:E; [|reflexivity].
  apply in_dac_range_spec in E. lia.
Qed.

Lemma commit_empty_dac_range ch v (self : Spellman F) :
  (dac_resolution (properties self) <= 0)%Z ->
  exists e, commit ch v self = (Raises e, self).
Proof.
  intros H. rewrite commit_cases.
  destruct (float_truediv _ _) as [q|e]; [|eauto].
  destruct (math_floor q) as [k|e]; [|eauto].
  rewrite (in_empty_dac_range k self H). eauto.
Qed.

(** X9.  With a [dac_resolution] that is zero or negative, [range(0,
    dac_resolution)] is empty: every commit raises with the instance
    exactly as it was, nothing written; [enable] raises before it writes
    [":ON"]; a set-point write never changes the instance. *)
Theorem empty_dac_range_commits_nothing (self : Spellman F) :
  (dac_resolution (properties self) <= 0)%Z ->
  (forall ch v, exists e, commit ch v self = (Raises e, self))
  /\ (exists e, enable self = (Raises e, self))
  /\ (forall ch v, snd (setpoint_write ch v self) = self).
Proof.
  intros H. split; [intros ch v; now apply commit_empty_dac_range|]. split.
  - rewrite enable_cases.
    destruct (commit_empty_dac_range Voltage lit0 self H) as [e E].
    cbn [commit] in E. rewrite E. eauto.
  - intros ch v. rewrite snd_setpoint_write.
    destruct (commit_empty_dac_range ch v self H) as [e E]. now rewrite E.
Qed.

End Requests.

Lemma query_keeps_instance_witness :
  let s := Bench.supply [Bench.line "12"] in
  commits_nothing (@ReadVoltage float) = true
  /\ same_but_connection s (serve Bench.rejecting ReadVoltage s)
  /\ sent_log (serve Bench.rejecting ReadVoltage s)
     = sent_log s ++ [frame (str_lit ":V?")].
Proof.
  cbv zeta. split; [reflexivity|].
  exact (query_keeps_instance Bench.rejecting ReadVoltage
           (Bench.supply [Bench.line "12"]) eq_refl).
Defined.

Lemma closed_stream_freezes_witness :
  let s := Bench.supply [] in
  let rs := [WriteVoltageSetpoint 5%float; Enable; ReadInterlock] in
  inbox s = []
  /\ same_but_connection s (serve_all Bench.rejecting rs s)
  /\ inbox (serve_all Bench.rejecting rs s) = []
  /\ sent_log (serve_all Bench.rejecting rs s)
     = [frame (str_lit ":V 50"); frame (str_lit ":V 0");
        frame (str_lit ":ILOCK?")].
Proof.
  cbv zeta.
  assert (H : inbox (Bench.supply []) = []) by reflexivity.
  split; [exact H|].
  destruct (closed_stream_freezes Bench.rejecting
              [WriteVoltageSetpoint 5%float; Enable; ReadInterlock]
              (Bench.supply []) H) as (A & B & _).
  split; [exact A|]. split; [exact B|]. vm_compute. reflexivity.
Defined.

Lemma empty_dac_range_commits_nothing_witness :
  let s := inverted_supply [Bench.line "OK"] in
  init_device inverted_psu (Some (link [] [Bench.line "OK"])) = Some s
  /\ (dac_resolution (properties s) <= 0)%Z
  /\ commit Voltage 0%float s = (Raises (VoltageExceededError 0), s)
  /\ (exists e, enable s = (Raises e, s))
  /\ snd (setpoint_write Voltage 5%float s) = s.
Proof.
  cbv zeta.
  assert (H : (dac_resolution (properties (inverted_supply [Bench.line "OK"]))
               <= 0)%Z) by (cbn; lia).
  split; [vm_compute; reflexivity|]. split; [exact H|].
  destruct (empty_dac_range_commits_nothing
              (inverted_supply [Bench.line "OK"]) H) as (_ & B & C).
  split; [vm_compute; reflexivity|]. split; [exact B|]. exact (C Voltage _).
Defined.

(** ** Binary64: requests that are no numbers, factors that are zero *)

Lemma truediv_by_zero (x y : float) :
  is_zero64 y = true -> float_truediv x y = Raises ZeroDivisionError.
Proof.
  unfold is_zero64. intros H.
  cbn [float_truediv Binary64.binary64]. unfold Binary64.truediv.
  rewrite eqb_spec, Prim2SF_zero.
  destruct (Prim2SF y) as [s|s| |s m e]; try discriminate.
  destruct s; reflexivity.
Qed.

Lemma truediv_by_nonzero (x y : float) :
  is_zero64 y = false -> float_truediv x y = Returns (x / y)%float.
Proof.
  unfold is_zero64. intros H.
  cbn [float_truediv Binary64.binary64]. unfold Binary64.truediv.
  rewrite eqb_spec, Prim2SF_zero.
  destruct (Prim2SF y) as [s|s| |s m e]; try discriminate;
    try destruct s; reflexivity.
Qed.

Lemma floor_of_nan_quotient (x y : float) :
  is_nan64 x = true \/ is_nan64 y = true ->
  math_floor (x / y)%float = Raises ValueError.
Proof.
  unfold is_nan64. intros H.
  cbn [math_floor Binary64.binary64]. unfold Binary64.floor.
  rewrite div_spec.
  destruct (Prim2SF x) as [sx|sx| |sx mx ex], (Prim2SF y) as [sy|sy| |sy my ey];
    try reflexivity; destruct H; discriminate.
Qed.

Lemma floor_of_infinite_quotient (x y : float) :
  is_inf64 x = true -> Binary64.finite_nonzero y = true ->
  math_floor (x / y)%float = Raises OverflowError.
Proof.
  unfold is_inf64, Binary64.finite_nonzero. intros Hx Hy.
  cbn [math_floor Binary64.binary64]. unfold Binary64.floor.
  rewrite div_spec.
  destruct (Prim2SF x) as [sx|sx| |sx mx ex]; try discriminate.
  destruct (Prim2SF y) as [sy|sy| |sy my ey]; try discriminate.
  reflexivity.
Qed.

Lemma finite_nonzero_not_zero (y : float) :
  Binary64.finite_nonzero y = true -> is_zero64 y = false.
Proof.
  unfold Binary64.finite_nonzero, is_zero64.
  destruct (Prim2SF y); try discriminate; reflexivity.
Qed.

(** X10.  Binary64, what a commit does with the values that are no
    numbers.  On a set factor that is a zero (a range of 0.0), every
    request raises [ZeroDivisionError].  A NaN request, and any request
    on a NaN factor, raises the [ValueError] of [math.floor]; an infinite
    request on a finite factor raises its [OverflowError].  In each case
    the instance is exactly as it was, nothing is written, and the
    attribute write reports [AttributeError]. *)
Theorem commit_on_special_values ch v (self : Spellman float) :
  (is_zero64 (set_factor ch self) = true ->
   commit ch v self = (Raises ZeroDivisionError, self)
   /\ setpoint_write ch v self = (Raises (AttributeError "message"), self))
  /\ (is_zero64 (set_factor ch self) = false ->
      is_nan64 v = true \/ is_nan64 (set_factor ch self) = true ->
      commit ch v self = (Raises ValueError, self)
      /\ setpoint_write ch v self = (Raises (AttributeError "message"), self))
  /\ (is_inf64 v = true ->
      Binary64.finite_nonzero (set_factor ch self) = true ->
      commit ch v self = (Raises OverflowError, self)
      /\ setpoint_write ch v self = (Raises (AttributeError "message"), self)).
Proof.
  rewrite setpoint_write_cases, commit_cases.
  split; [|split].
  - intros Hz. rewrite (truediv_by_zero v _ Hz). split; reflexivity.
  - intros Hz Hn. rewrite (truediv_by_nonzero v _ Hz).
    rewrite (floor_of_nan_quotient v _ Hn). split; reflexivity.
  - intros Hi Hf.
    rewrite (truediv_by_nonzero v _ (finite_nonzero_not_zero _ Hf)).
    rewrite (floor_of_infinite_quotient v _ Hi Hf). split; reflexivity.
Qed.

Lemma commit_on_special_values_witness :
  let s := Bench.supply [Bench.line "OK"] in
  is_zero64 (set_factor Voltage s) = false
  /\ is_nan64 nan = true
  /\ is_inf64 infinity = true
  /\ Binary64.finite_nonzero (set_factor Voltage s) = true
  /\ commit Voltage nan s = (Raises ValueError, s)
  /\ setpoint_write Voltage nan s = (Raises (AttributeError "message"), s)
  /\ commit Voltage infinity s = (Raises OverflowError, s)
  /\ setpoint_write Voltage infinity s
     = (Raises (AttributeError "message"), s).
Proof.
  cbv zeta.
  assert (Hz : is_zero64 (set_factor Voltage (Bench.supply [Bench.line "OK"]))
               = false) by (vm_compute; reflexivity).
  assert (Hn : is_nan64 nan = true) by (vm_compute; reflexivity).
  assert (Hi : is_inf64 infinity = true) by (vm_compute; reflexivity).
  assert (Hf : Binary64.finite_nonzero
                 (set_factor Voltage (Bench.supply [Bench.line "OK"])) = true)
    by (vm_compute; reflexivity).
  repeat (split; [assumption|]).
  destruct (commit_on_special_values Voltage nan
              (Bench.supply [Bench.line "OK"])) as (_ & B & _).
  destruct (commit_on_special_values Voltage infinity
              (Bench.supply [Bench.line "OK"])) as (_ & _ & C).
  destruct (B Hz (or_introl Hn)) as [B1 B2].
  destruct (C Hi Hf) as [C1 C2].
  repeat (split; [assumption|]). assumption.
Defined.

(** ** Binary64: an [enable] that returned *)

Lemma floor_zero_quotient (f : float) k :
  is_zero64 f = false ->
  math_floor (0 / f)%float = Returns k -> k = 0%Z.
Proof.
  unfold is_zero64.
  cbn [math_floor Binary64.binary64]. unfold Binary64.floor.
  rewrite div_spec, Prim2SF_zero. intros Hz.
  destruct (Prim2SF f) as [s|s| |s m e]; try discriminate;
    cbn; intros H; inversion H; reflexivity.
Qed.

(** A commit of [0.0] that returned: the DAC has codes, the controller
    acknowledged [0] and the stored value is [1.0 * 0 * set_factor]. *)
Lemma zero_commit_returned ch (self s' : Spellman float) :
  commit ch 0%float self = (Returns tt, s') ->
  (0 < dac_resolution (properties self))%Z
  /\ exists c,
       receive (having_sent [frame (set_command ch 0)] self)
       = (Returns (str_lit "OK"), c)
       /\ s' = assign_setpoint ch (1 * 0 * set_factor ch self)%float
                 (assign_connection c self).
Proof.
  rewrite commit_cases.
  destruct (is_zero64 (set_factor ch self)) eqn:Hz.
  - rewrite (truediv_by_zero _ _ Hz). discriminate.
  - rewrite (truediv_by_nonzero _ _ Hz).
    destruct (math_floor _) as [k|e] eqn:Hk; [|discriminate].
    apply (floor_zero_quotient _ _ Hz) in Hk. subst k.
    destruct (in_dac_range 0 self) eqn:Hin; [|discriminate].
    apply in_dac_range_spec in Hin.
    change (quantized 0 (set_factor ch self))
      with (Returns (1 * 0 * set_factor ch self)%float).
    destruct (receive _) as [[r|e] c]; [|discriminate].
    destruct (str_eq_dec r (str_lit "OK")) as [->|_]; [|discriminate].
    intros H. injection H as <-. split; [lia|]. now exists c.
Qed.

Lemma skipn_app_length {A} (l l' : list A) :
  skipn (List.length l) (l ++ l') = l'.
Proof. induction l; [reflexivity|exact IHl]. Qed.

(** X11.  Binary64.  When [enable] returns normally, the controller has
    acknowledged both zero set-points: the frames written are exactly
    [":V 0"], [":C 0"] and [":ON"], in this order, the returned text is
    the response to [":ON"], both stored set-points are [1.0 * 0 *
    set_factor], and [dac_resolution] is positive. *)
Theorem enable_returned (self s' : Spellman float) response :
  enable self = (Returns response, s') ->
  written_by enable self
  = [frame (str_lit ":V 0"); frame (str_lit ":C 0"); frame (str_lit ":ON")]
  /\ (0 < dac_resolution (properties self))%Z
  /\ _voltage_setpoint s' = (1 * 0 * _voltage_set_factor self)%float
  /\ _current_setpoint s' = (1 * 0 * _current_set_factor self)%float
  /\ same_configuration self s'
  /\ exists c c',
       receive c = (Returns response, c')
       /\ connection s' = c'
       /\ written (interface c)
          = sent_log self
            ++ [frame (str_lit ":V 0"); frame (str_lit ":C 0");
                frame (str_lit ":ON")].
Proof.
  intros E. unfold written_by. rewrite E. cbn [snd].
  revert E. rewrite enable_cases.
  change (set_voltage lit0 self) with (commit Voltage 0%float self).
  destruct (commit Voltage 0%float self) as [[[]|e] s1] eqn:E1;
    [|discriminate].
  apply zero_commit_returned in E1. destruct E1 as (Hres & c1 & R1 & ->).
  change (set_current lit0) with (commit Current 0%float).
  destruct (commit Current 0%float _) as [[[]|e] s2] eqn:E2; [|discriminate].
  apply zero_commit_returned in E2. destruct E2 as (_ & c2 & R2 & ->).
  pose proof (f_equal (fun c => written (interface (snd c))) R1) as W1.
  pose proof (f_equal (fun c => written (interface (snd c))) R2) as W2.
  cbv beta in W1, W2. rewrite written_after_receive in W1, W2.
  cbn [snd] in W1, W2.
  rewrite sent_log_assign_setpoint, sent_log_assign_connection in W2.
  destruct (receive (having_sent [frame (str_lit ":ON")] _))
    as [r3 c3] eqn:R3.
  pose proof (f_equal (fun c => written (interface (snd c))) R3) as W3.
  cbv beta in W3. rewrite written_after_receive in W3. cbn [snd] in W3.
  rewrite sent_log_assign_setpoint, sent_log_assign_connection in W3.
  cbn [fst snd]. intros E. injection E as -> <-.
  rewrite sent_log_assign_connection, <- W3, <- W2, <- W1.
  rewrite <- !app_assoc. cbn [List.app].
  split; [apply skipn_app_length|]. split; [exact Hres|].
  split; [reflexivity|]. split; [reflexivity|]. split; [repeat split|].
  eexists _, c3. split; [exact R3|]. split; [reflexivity|].
  unfold having_sent, link. cbn [written interface].
  rewrite sent_log_assign_setpoint, sent_log_assign_connection.
  rewrite <- W2, <- W1, <- !app_assoc. reflexivity.
Qed.

Lemma enable_returned_witness :
  let s := Bench.supply [Bench.line "OK"; Bench.line "OK"; Bench.line "ON"] in
  enable s
  = (Returns (str_lit "ON"),
     assign_connection
       (link [frame (str_lit ":V 0"); frame (str_lit ":C 0");
              frame (str_lit ":ON")] []) s)
  /\ written_by enable s
     = [frame (str_lit ":V 0"); frame (str_lit ":C 0"); frame (str_lit ":ON")]
  /\ (0 < dac_resolution (properties s))%Z.
Proof.
  cbv zeta.
  assert (E : enable (Bench.supply [Bench.line "OK"; Bench.line "OK";
                                    Bench.line "ON"])
              = (Returns (str_lit "ON"),
                 assign_connection
                   (link [frame (str_lit ":V 0"); frame (str_lit ":C 0");
                          frame (str_lit ":ON")] [])
                   (Bench.supply [Bench.line "OK"; Bench.line "OK";
                                  Bench.line "ON"])))
    by (vm_compute; reflexivity).
  split; [exact E|].
  destruct (enable_returned _ _ _ E) as (A & B & _).
  split; [exact A|exact B].
Defined.

(** ** Binary64: [init_device] and the resolutions *)






(** ** Arrivals of more than 1024 bytes *)

Lemma skipn_nonempty {A} (n : nat) (l : list A) :
  (n < List.length l)%nat -> skipn n l <> [].
Proof.
  intros H E. pose proof (length_skipn n l) as L. rewrite E in L.
  cbn in L. lia.
Qed.

(** X13.  [receive] reads 1024 bytes at most.  Of a longer arrival it
    looks at the first 1024 bytes only: a terminator further on is not
    seen, and the bytes after the 1024th are not discarded with the rest
    of the line but stay in the socket, where the next [receive] reads
    them as the start of the next response. *)
Theorem receive_reads_1024_bytes w chunk later :
  (1024 < List.length chunk)%nat ->
  snd (receive (link w (chunk :: later)))
  = link w (skipn 1024 chunk :: later)
  /\ (~ In x0a (firstn 1024 chunk) ->
      fst (receive (link w (chunk :: later)))
      = Raises (NameError "SocketError"))
  /\ (forall line rest,
        firstn 1024 chunk = (line ++ x0a :: rest)%list ->
        ~ In x0a line ->
        fst (receive (link w (chunk :: later))) = decode line).
Proof.
  intros H.
  pose proof (skipn_nonempty 1024 chunk H) as Hs.
  rewrite receive_unfold. unfold link, socket_recv.
  cbn [interface incoming written fst snd]. cbv zeta.
  destruct (skipn 1024 chunk) as [|b left] eqn:E; [now elim Hs|].
  split; [|split].
  - destruct (contains x0a _); [|reflexivity].
    destruct (split x0a _); reflexivity.
  - intros Hn. apply contains_not_In in Hn. now rewrite Hn.
  - intros line rest E1 Hl. rewrite E1.
    assert (C : contains x0a (line ++ x0a :: rest) = true)
      by (apply contains_In, in_or_app; right; now left).
    rewrite C, (split_first_piece x0a line rest Hl). reflexivity.
Qed.

Lemma receive_reads_1024_bytes_witness :
  let chunk := (Bench.line "OK" ++ List.repeat x30 1021 ++ Bench.line "1")%list in
  (1024 < List.length chunk)%nat
  /\ ~ In x0a (list_byte_of_string "OK")
  /\ receive (link [] [chunk])
     = (Returns (str_lit "OK"), link [] [Bench.line "1"])
  /\ receive (link [] [Bench.line "1"]) = (Returns (str_lit "1"), link [] []).
Proof.
  cbv zeta.
  assert (H : (1024 < List.length (Bench.line "OK" ++ List.repeat x30 1021
                                   ++ Bench.line "1"))%nat)
    by (vm_compute; lia).
  assert (Hl : ~ In x0a (list_byte_of_string "OK"))
    by (vm_compute; intuition discriminate).
  split; [exact H|]. split; [exact Hl|].
  destruct (receive_reads_1024_bytes [] _ [] H) as (A & _ & C).
  specialize (C (list_byte_of_string "OK") (List.repeat x30 1021)
                eq_refl Hl).
  split; [|vm_compute; reflexivity].
  destruct (receive _) as [o c]. cbn [fst snd] in A, C. subst o c.
  vm_compute. reflexivity.
Defined.

(** ** Frames written and arrivals read *)

Section Exchanges.

Context {F : Type} {arith : PyFloat F}.
Variable float_of_str : str -> outcome F.

Lemma receive_consumes c :
  (List.length (incoming (interface c))
   <= List.length (incoming (interface (snd (receive c)))) + 1)%nat.
Proof.
  rewrite receive_unfold. cbv zeta.
  assert (S : (List.length (incoming (interface c))
               <= List.length (incoming (snd (socket_recv 1024 (interface c))))
                  + 1)%nat).
  { unfold socket_recv. destruct (incoming (interface c)) as [|chunk later];
      cbn [snd incoming List.length]; [lia|].
    destruct (skipn 1024 chunk); cbn [List.length]; lia. }
  destruct (contains x0a _); [|exact S].
  destruct (split x0a _); exact S.
Qed.

Lemma exchanged_refl n (self : Spellman F) : exchanged n self self.
Proof.
  exists []. rewrite app_nil_r. cbn [List.length].
  split; [reflexivity|]. split; lia.
Qed.

Lemma exchanged_trans n m (a b c : Spellman F) :
  exchanged n a b -> exchanged m b c -> exchanged (n + m) a c.
Proof.
  intros (f & E & L & I) (g & E' & L' & I').
  exists (f ++ g)%list. rewrite E', E, app_assoc, length_app.
  split; [reflexivity|]. split; lia.
Qed.

Lemma exchanged_weaken n m (a b : Spellman F) :
  (n <= m)%nat -> exchanged n a b -> exchanged m a b.
Proof.
  intros H (f & E & L & I). exists f. split; [exact E|]. split; lia.
Qed.

Lemma exchanged_once f (self : Spellman F) :
  exchanged 1 self
    (assign_connection (snd (receive (having_sent [f] self))) self).
Proof.
  exists [f]. rewrite sent_log_assign_connection, written_after_receive.
  split; [reflexivity|]. split; [cbn; lia|].
  pose proof (receive_consumes (having_sent [f] self)) as C.
  unfold inbox. cbn [connection assign_connection List.length].
  exact C.
Qed.

Lemma exchanged_assign_setpoint n ch sp (a b : Spellman F) :
  exchanged n a b -> exchanged n a (assign_setpoint ch sp b).
Proof.
  intros (f & E & L & I). exists f.
  rewrite sent_log_assign_setpoint.
  split; [exact E|]. split; [exact L|]. destruct ch; exact I.
Qed.

Lemma exchanged_commit ch v (self : Spellman F) :
  exchanged 1 self (snd (commit ch v self)).
Proof.
  rewrite commit_cases.
  destruct (float_truediv _ _) as [q|e]; [|apply exchanged_refl].
  destruct (math_floor q) as [k|e]; [|apply exchanged_refl].
  destruct (in_dac_range k self); [|apply exchanged_refl].
  destruct (quantized k _) as [sp|e]; [|apply exchanged_refl].
  pose proof (exchanged_once (frame (set_command ch k)) self) as X.
  destruct (receive _) as [[r|e] c]; cbn [snd] in X |- *; [|exact X].
  destruct (str_eq_dec r (str_lit "OK")); cbn [snd]; [|exact X].
  now apply exchanged_assign_setpoint.
Qed.

(** X14.  Whatever the request, the device appends to what it has
    written and writes three frames at most ([enable]); it calls [recv]
    only after a [send], so it never takes more arrivals from the socket
    than it wrote frames. *)
Theorem serve_exchanges r (self : Spellman F) :
  exchanged 3 self (serve float_of_str r self)
  /\ (commits_nothing r = true ->
      exchanged 1 self (serve float_of_str r self))
  /\ (forall ch v, exchanged 1 self (snd (setpoint_write ch v self))).
Proof.
  assert (Q : commits_nothing r = true ->
              exchanged 1 self (serve float_of_str r self)).
  { intros H. rewrite (query_state float_of_str r self H).
    destruct (query r); [apply exchanged_refl|apply exchanged_once]. }
  assert (W : forall ch v, exchanged 1 self (snd (setpoint_write ch v self))).
  { intros ch v. rewrite snd_setpoint_write. apply exchanged_commit. }
  split; [|split; assumption].
  destruct (commits_nothing r) eqn:C.
  - apply (exchanged_weaken 1); [lia|now apply Q].
  - destruct r; try discriminate C; cbn [serve].
    + apply (exchanged_weaken 1); [lia|exact (W Voltage value)].
    + apply (exchanged_weaken 1); [lia|exact (W Current value)].
    + rewrite enable_cases.
      pose proof (exchanged_commit Voltage lit0 self) as X1.
      cbn [commit] in X1.
      destruct (set_voltage lit0 self) as [[[]|e] s1]; cbn [snd] in X1 |- *;
        [|apply (exchanged_weaken 1); [lia|exact X1]].
      pose proof (exchanged_commit Current lit0 s1) as X2.
      cbn [commit] in X2.
      pose proof (exchanged_trans _ _ _ _ _ X1 X2) as X12.
      destruct (set_current lit0 s1) as [[[]|e] s2]; cbn [snd] in X2, X12 |- *;
        [|apply (exchanged_weaken (1 + 1)); [lia|exact X12]].
      exact (exchanged_trans _ _ _ _ _ X12
               (exchanged_once (frame (str_lit ":ON")) s2)).
Qed.

End Exchanges.

(** ** Exact arithmetic: which requests pass the range check *)

Section ExactRange.

Import (hints) Exact.
Open Scope Q_scope.




End ExactRange.

